(** * Pipeline valuation model (model.py): shallow embedding and properties

    Number model.  Python's [int] is [Z].  Python's [float] is modelled by
    the exact rationals [Qc]: the arithmetic of the source is kept operator
    by operator and in the source's order of evaluation, but rounding,
    overflow and signed zeros of binary64 are outside the model.  The one
    non-numeric float the source builds itself, [float('nan')] in
    [calculate_roi], is a constructor of its own ([NaN]).

    Exceptions.  A Python expression that can raise ([/] by zero, a
    dictionary subscript, [np.linspace] with a negative count, [**] of zero
    to a negative exponent) is a computation in the error monad [res]. *)

From Stdlib Require Import ZArith QArith Qcanon Qcabs Lia.
From stdpp Require Import base decidable option list list_numbers strings numbers.

Local Open Scope Z_scope.
Local Open Scope Qc_scope.
Local Open Scope list_scope.

(** ** Exceptions as an error monad *)

Inductive exn : Type :=
  | ZeroDivisionError
  | ValueError
  | KeyError.

Inductive res (A : Type) : Type :=
  | Ok (a : A)
  | Raise (e : exn).
Arguments Ok {A} a.
Arguments Raise {A} e.

Definition bind {A B : Type} (m : res A) (k : A -> res B) : res B :=
  match m with
  | Ok a => k a
  | Raise e => Raise e
  end.

Notation "'let!' x ':=' m 'in' k" := (bind m (fun x => k))
  (at level 10, x pattern, m at level 100, k at level 200).

(** A comprehension whose element expression can raise: elements are
    evaluated left to right and the first exception ends the evaluation. *)
Fixpoint comprehension {A B : Type} (f : A -> res B) (l : list A) : res (list B) :=
  match l with
  | [] => Ok []
  | x :: l' =>
      let! y := f x in
      let! ys := comprehension f l' in
      Ok (y :: ys)
  end.

(** A [for] loop over [l] threading the loop state [s]. *)
Fixpoint for_each {S A : Type} (body : S -> A -> res S) (s : S) (l : list A) : res S :=
  match l with
  | [] => Ok s
  | x :: l' => let! s' := body s x in for_each body s' l'
  end.

(** ** Python numbers *)

(** An [int] used where a float is expected. *)
Definition of_int (n : Z) : Qc := Qc_of_Z n.

(** [x / y] with a Python float for [x]: a zero divisor raises.  (A numpy
    scalar divided by zero gives inf or nan instead, numbers this model does
    not have; nothing below is stated at a zero divisor.) *)
Definition py_div (x y : Qc) : res Qc :=
  if decide (y = 0) then Raise ZeroDivisionError else Ok (x / y).

(** [x ** n] for a float [x] and an int [n]. *)
Definition py_pow (x : Qc) (n : Z) : res Qc :=
  if decide (0 <= n)%Z then Ok (x ^ Z.to_nat n)
  else if decide (x = 0) then Raise ZeroDivisionError
  else Ok (/ (x ^ Z.to_nat (- n))).

(** The builtin [sum]: starts from 0 and adds the items from the left. *)
Definition py_sum (l : list Qc) : Qc := fold_left Qcplus l 0.

(** [range(lo, hi)] and [range(n)]. *)
Definition range2 (lo hi : Z) : list Z := seqZ lo (hi - lo).
Definition range (n : Z) : list Z := range2 0 n.

(** [enumerate(l, start)]. *)
Fixpoint enumerate {A : Type} (l : list A) (start : Z) : list (Z * A) :=
  match l with
  | [] => []
  | x :: l' => (start, x) :: enumerate l' (start + 1)
  end.

(** [[x] * n]: no item when [n] is not positive. *)
Definition list_times {A : Type} (x : A) (n : Z) : list A := replicate (Z.to_nat n) x.

(** ** Dictionaries, in insertion order *)

Definition dict : Type := list (string * Qc).

Fixpoint dict_get (d : dict) (k : string) : res Qc :=
  match d with
  | [] => Raise KeyError
  | (k', v) :: d' => if decide (k' = k) then Ok v else dict_get d' k
  end.

(** [d[k] = v]: an existing key keeps its place, a new key goes last. *)
Fixpoint dict_set (d : dict) (k : string) (v : Qc) : dict :=
  match d with
  | [] => (k, v) :: []
  | (k', v') :: d' => if decide (k' = k) then (k', v) :: d' else (k', v') :: dict_set d' k v
  end.

Definition dict_keys (d : dict) : list string := fst <$> d.
Definition dict_values (d : dict) : list Qc := snd <$> d.

(** ** numpy.linspace(start, stop, num), with its defaults
    ([endpoint=True], float64 result).  numpy computes
    [div = num - 1], [delta = stop - start], [y = arange(0, num)];
    when [div > 0] it scales [y] by [step = delta / div] (dividing first
    when the step is zero), otherwise by [delta]; it then adds [start] and,
    when [num > 1], writes [stop] into the last item. *)
Definition linspace (start stop : Qc) (num : Z) : res (list Qc) :=
  if decide (num < 0)%Z then Raise ValueError else
  let div := (num - 1)%Z in
  let delta := stop - start in
  let y := of_int <$> seqZ 0 num in
  let! y :=
    if decide (0 < div)%Z then
      let! step := py_div delta (of_int div) in
      if decide (step = 0)
      then let! y' := comprehension (fun v => py_div v (of_int div)) y in
           Ok ((fun v => v * delta) <$> y')
      else Ok ((fun v => v * step) <$> y)
    else Ok ((fun v => v * delta) <$> y) in
  let y := (fun v => v + start) <$> y in
  Ok (if decide (1 < num)%Z then <[ Z.to_nat (num - 1) := stop ]> y else y).

(** ** CONFIGURATIONS *)

Definition DEFAULT_DISCOUNT_RATE : Qc := Q2Qc (15 # 100).

Definition PHASE_PROBABILITIES : dict :=
  [ ("Preclinical"%string, Q2Qc (33 # 100));
    ("Phase 1"%string, Q2Qc (6 # 10));
    ("Phase 2"%string, Q2Qc (36 # 100));
    ("Phase 3"%string, Q2Qc (63 # 100)) ].

Definition RARE_DISEASE_PHASE_PROBABILITIES : dict :=
  [ ("Preclinical"%string, Q2Qc (4 # 10));
    ("Phase 1"%string, Q2Qc (7 # 10));
    ("Phase 2"%string, Q2Qc (45 # 100));
    ("Phase 3"%string, Q2Qc (8 # 10)) ].

Definition CLINICAL_DEVELOPMENT_COSTS : dict :=
  [ ("Preclinical"%string, of_int 30000000);
    ("Phase 1"%string, of_int 10000000);
    ("Phase 2"%string, of_int 50000000);
    ("Phase 3"%string, of_int 150000000) ].

Definition DEFAULT_RAMP_YEARS : Z := 6.
Definition DEFAULT_PEAK_YEARS : Z := 7.
Definition DEFAULT_DECLINE_YEARS : Z := 8.

(** ** HELPER FUNCTIONS *)

(** One term of the generator in [calculate_npv]:
    [cf / ((1 + discount_rate) ** t)]. *)
Definition npv_term (discount_rate : Qc) (item : Z * Qc) : res Qc :=
  let '(t, cf) := item in
  let! d := py_pow (1 + discount_rate) t in
  py_div cf d.

Definition calculate_npv (cash_flows : list Qc) (discount_rate : Qc) : res Qc :=
  let! terms := comprehension (npv_term discount_rate) (enumerate cash_flows 1) in
  Ok (py_sum terms).

(** The result of [calculate_roi]: a number or [float('nan')]. *)
Inductive roi_value : Type :=
  | Num (x : Qc)
  | NaN.

Definition calculate_roi (npv total_investment : Qc) : res roi_value :=
  if decide (0 < total_investment)
  then let! q := py_div (npv - total_investment) total_investment in
       Ok (Num (q * of_int 100))
  else Ok NaN.

(** [peak_revenue] of [calculate_revenue_curve]. *)
Definition peak_revenue_of (eligible_population price_per_patient market_penetration : Qc)
  : res Qc :=
  let! share := py_div market_penetration (of_int 100) in
  Ok (eligible_population * price_per_patient * share).

(** [ramp_curve], [peak_curve] and [decline_curve] of
    [calculate_revenue_curve], each from [peak_revenue]. *)
Definition ramp_curve (peak_revenue : Qc) (ramp_years : Z) : res (list Qc) :=
  let! ps := linspace (Q2Qc (1 # 10)) 1 ramp_years in
  Ok ((fun p => peak_revenue * p) <$> ps).

Definition peak_curve (peak_revenue : Qc) (peak_years : Z) : list Qc :=
  list_times peak_revenue peak_years.

Definition decline_term (peak_revenue decline_rate : Qc) (year : Z) : res Qc :=
  let! d := py_pow (1 - decline_rate) year in
  Ok (peak_revenue * d).

Definition decline_curve (peak_revenue : Qc) (decline_years : Z) (decline_rate : Qc)
  : res (list Qc) :=
  comprehension (decline_term peak_revenue decline_rate) (range2 1 (decline_years + 1)).

Definition calculate_revenue_curve
    (eligible_population price_per_patient market_penetration : Qc)
    (ramp_years peak_years decline_years : Z) (decline_rate : Qc) : res (list Qc) :=
  let! peak_revenue :=
    peak_revenue_of eligible_population price_per_patient market_penetration in
  let! ramp := ramp_curve peak_revenue ramp_years in
  let peak := peak_curve peak_revenue peak_years in
  let! decline := decline_curve peak_revenue decline_years decline_rate in
  Ok (ramp ++ peak ++ decline).

Definition DELAY_YEAR_CASH_FLOW : Qc := of_int (-500000000).

Definition simulate_pipeline_cash_flows
    (eligible_population price_per_patient market_penetration : Qc) (delay_years : Z)
    (ramp_years peak_years decline_years : Z) (decline_rate : Qc) : res (list Qc) :=
  let cash_flows := (fun _ => DELAY_YEAR_CASH_FLOW) <$> range delay_years in
  let! revenue_curve :=
    calculate_revenue_curve eligible_population price_per_patient market_penetration
      ramp_years peak_years decline_years decline_rate in
  Ok (cash_flows ++ revenue_curve).

Record funding : Type := Funding {
  total_funding : Qc;
  breakdown : dict
}.

(** The dictionary comprehension [{phase: phase_costs[phase] for phase in phase_costs}]. *)
Definition copy_entry (phase_costs : dict) (acc : dict) (phase : string) : res dict :=
  let! cost := dict_get phase_costs phase in
  Ok (dict_set acc phase cost).

Definition estimate_funding_requirements (pipeline_cash_flows : list Qc) (phase_costs : dict)
  : res funding :=
  let pre_revenue_cash_flows := filter (fun cf => cf < 0) pipeline_cash_flows in
  let! breakdown := for_each (copy_entry phase_costs) [] (dict_keys phase_costs) in
  Ok (Funding (py_sum (dict_values breakdown)) breakdown).

(** ** STREAMLIT APP *)

(** What the widgets of one pass of the loop of [main] return. *)
Record asset : Type := Asset {
  rare_disease : bool;
  phase : string;
  eligible_population : Z;
  market_penetration_rate : Z;
  price_per_patient : Qc;
  ramp_years : Z;
  peak_years : Z;
  decline_years : Z;
  decline_rate : Qc
}.

(** [probabilities = RARE_DISEASE_PHASE_PROBABILITIES if rare_disease == "Yes"
    else PHASE_PROBABILITIES]. *)
Definition probabilities_of (a : asset) : dict :=
  if rare_disease a then RARE_DISEASE_PHASE_PROBABILITIES else PHASE_PROBABILITIES.

(** The ranges the widgets enforce ([min_value], [max_value], [options]). *)
Record valid_asset (a : asset) : Prop := ValidAsset {
  valid_phase : phase a ∈ dict_keys (probabilities_of a);
  valid_population : (0 <= eligible_population a)%Z;
  valid_penetration : (0 <= market_penetration_rate a <= 100)%Z;
  valid_price : 0 <= price_per_patient a;
  valid_ramp : (1 <= ramp_years a <= 10)%Z;
  valid_peak : (1 <= peak_years a <= 10)%Z;
  valid_decline : (1 <= decline_years a <= 20)%Z;
  valid_rate : 0 <= decline_rate a /\ decline_rate a <= 1
}.

(** The list and number variables of [main] that the loop assigns.
    [cash_flows] and [risk_adjusted_cash_flows] are bound by the first pass;
    until then they are never read and hold [[]] here. *)
Record frame : Type := Frame {
  pipeline_cash_flows : list Qc;
  total_investment : Qc;
  cash_flows : list Qc;
  risk_adjusted_cash_flows : list Qc
}.

Definition initial_frame : frame := Frame [] 0 [] [].

(** [cash_flows = simulate_pipeline_cash_flows(..., delay_years=0, ...)]. *)
Definition asset_cash_flows (a : asset) : res (list Qc) :=
  simulate_pipeline_cash_flows
    (of_int (eligible_population a)) (price_per_patient a)
    (of_int (market_penetration_rate a)) 0
    (ramp_years a) (peak_years a) (decline_years a) (decline_rate a).

Definition assign_cash_flows (a : asset) (f : frame) : res frame :=
  let! cfs := asset_cash_flows a in
  Ok (Frame (pipeline_cash_flows f) (total_investment f) cfs (risk_adjusted_cash_flows f)).

(** [abs(sum(cf for cf in cash_flows if cf < 0))]. *)
Definition investment_of (cash_flows : list Qc) : Qc :=
  Qcabs (py_sum (filter (fun cf => cf < 0) cash_flows)).

(** [total_investment += abs(sum(cf for cf in cash_flows if cf < 0))]. *)
Definition add_investment (f : frame) : frame :=
  Frame (pipeline_cash_flows f) (total_investment f + investment_of (cash_flows f))
        (cash_flows f) (risk_adjusted_cash_flows f).

(** [risk_adjusted_cash_flows = [cf * phase_probability for cf in cash_flows]]. *)
Definition assign_risk_adjusted (phase_probability : Qc) (f : frame) : frame :=
  Frame (pipeline_cash_flows f) (total_investment f) (cash_flows f)
        ((fun cf => cf * phase_probability) <$> cash_flows f).

(** [pipeline_cash_flows.extend(risk_adjusted_cash_flows)]. *)
Definition extend_pipeline (f : frame) : frame :=
  Frame (pipeline_cash_flows f ++ risk_adjusted_cash_flows f) (total_investment f)
        (cash_flows f) (risk_adjusted_cash_flows f).

Definition loop_body (f : frame) (a : asset) : res frame :=
  let probabilities := probabilities_of a in
  let! phase_probability := dict_get probabilities (phase a) in
  let! f := assign_cash_flows a f in
  let f := add_investment f in
  let f := assign_risk_adjusted phase_probability f in
  Ok (extend_pipeline f).

(** The numbers [main] writes out. *)
Record results : Type := Results {
  npv_pipeline : Qc;
  funding_requirements : funding;
  roi : roi_value
}.

(** The [for] loop of [main], from the widgets' answers for the
    [num_assets] assets. *)
Definition run_loop (assets : list asset) : res frame :=
  for_each loop_body initial_frame assets.

Definition main (assets : list asset) : res results :=
  let! f := run_loop assets in
  let! npv := calculate_npv (pipeline_cash_flows f) DEFAULT_DISCOUNT_RATE in
  let! fr := estimate_funding_requirements (pipeline_cash_flows f) CLINICAL_DEVELOPMENT_COSTS in
  let! r := calculate_roi npv (total_investment f) in
  Ok (Results npv fr r).

(** ** The formulas of the specification, for comparison *)

(** [Σ_{t = lo}^{lo + n - 1} f t]. *)
Definition big_sum (f : nat -> Qc) (lo n : nat) : Qc :=
  foldr (fun t acc => f t + acc) 0 (seq lo n).

(** [Σ_{t=1}^{n} cf[t−1] / (1+r)^t]. *)
Definition npv_formula (cf : list Qc) (r : Qc) : Qc :=
  big_sum (fun t => nth (t - 1) cf 0 / (1 + r) ^ t) 1 (length cf).

(** The items of [linspace start stop num] when it does not raise. *)
Definition linspace_items (start stop : Qc) (num : Z) : list Qc :=
  let div := (num - 1)%Z in
  let delta := stop - start in
  let y := of_int <$> seqZ 0 num in
  let scaled :=
    if decide (0 < div)%Z then
      if decide (delta / of_int div = 0)
      then (fun v => v * delta) <$> ((fun v => v / of_int div) <$> y)
      else (fun v => v * (delta / of_int div)) <$> y
    else (fun v => v * delta) <$> y in
  let y := (fun v => v + start) <$> scaled in
  if decide (1 < num)%Z then <[ Z.to_nat (num - 1) := stop ]> y else y.

(** What the series of pairs [(raw series, probability)] says about the
    assets: the pair of an asset is what its pass of the loop computes. *)
Definition series_of (a : asset) (s : list Qc * Qc) : Prop :=
  asset_cash_flows a = Ok (fst s) /\ dict_get (probabilities_of a) (phase a) = Ok (snd s).

Definition risk_adjusted (s : list Qc * Qc) : list Qc := (fun cf => cf * snd s) <$> fst s.

(** A portfolio of two assets in the widgets' ranges. *)
Definition sample_portfolio : list asset :=
  [ Asset false "Phase 1" 1000 50 (of_int 100000) 6 7 8 (Q2Qc (1 # 10));
    Asset true "Phase 3" 200 30 (of_int 50000) 1 1 1 (Q2Qc (1 # 2)) ].

(** A portfolio whose first asset has a decline rate outside the widgets'
    range, so that its raw series has a negative item, and the raw series
    and probabilities of its two assets. *)
Definition loss_portfolio : list asset :=
  [ Asset false "Phase 1" 10 100 (of_int 100) 1 1 1 (of_int 2);
    Asset true "Phase 3" 200 30 (of_int 50000) 1 1 1 (Q2Qc (1 # 2)) ].

Definition loss_series : list (list Qc * Qc) :=
  [ ([of_int 100; of_int 1000; of_int (-1000)], Q2Qc (6 # 10));
    ([of_int 300000; of_int 3000000; of_int 1500000], Q2Qc (8 # 10)) ].

(** The discounted sum of a series whose first item has period [k]:
    [Σ_{i} cf[i] / (1+r)^(k+i)]. *)
Definition npv_from (cf : list Qc) (k : nat) (r : Qc) : Qc :=
  big_sum (fun t => nth (t - k) cf 0 / (1 + r) ^ t) k (length cf).

(** The portfolio value asset by asset: the NPV of each raw series, weighted
    by the asset's probability and discounted by the years of the assets
    before it ([offset]). *)
Fixpoint staggered_npv (series : list (list Qc * Qc)) (offset : nat) (r : Qc) : Qc :=
  match series with
  | [] => 0
  | s :: rest =>
      snd s * npv_formula (fst s) r / (1 + r) ^ offset
      + staggered_npv rest (offset + length (fst s)) r
  end.

(** * Properties *)

(** ** The error monad and the number layer *)

Lemma comprehension_total {A B : Type} (f : A -> res B) (g : A -> B) (l : list A) :
  Forall (fun x => f x = Ok (g x)) l -> comprehension f l = Ok (g <$> l).
Proof.
  induction 1 as [|x l Hx _ IH]; [reflexivity|].
  cbn. rewrite Hx. cbn. rewrite IH. reflexivity.
Qed.

Lemma Ok_inj {A : Type} (a b : A) : Ok a = Ok b -> a = b.
Proof. intros H. congruence. Qed.

Lemma py_pow_nonneg (x : Qc) (n : Z) : (0 <= n)%Z -> py_pow x n = Ok (x ^ Z.to_nat n).
Proof. intros Hn. unfold py_pow. destruct (decide (0 <= n)%Z); [reflexivity|lia]. Qed.

Lemma py_div_nonzero (x y : Qc) : y <> 0 -> py_div x y = Ok (x / y).
Proof. intros Hy. unfold py_div. destruct (decide (y = 0)); [contradiction|reflexivity]. Qed.

Lemma Qcpower_nonzero (x : Qc) (n : nat) : x <> 0 -> x ^ n <> 0.
Proof.
  intros Hx. induction n as [|n IH]; cbn.
  - apply Q_apart_0_1.
  - intros H. destruct (Qcmult_integral _ _ H); contradiction.
Qed.

Lemma py_sum_foldr (l : list Qc) : py_sum l = foldr Qcplus 0 l.
Proof.
  unfold py_sum. apply fold_symmetric.
  - intros x y z. apply Qcplus_assoc.
  - intros y. apply Qcplus_comm.
Qed.

Lemma py_sum_cons (x : Qc) (l : list Qc) : py_sum (x :: l) = x + py_sum l.
Proof. rewrite !py_sum_foldr. reflexivity. Qed.

Lemma py_sum_app (l k : list Qc) : py_sum (l ++ k) = py_sum l + py_sum k.
Proof.
  induction l as [|x l IH]; cbn [app].
  - unfold py_sum at 2. cbn. rewrite Qcplus_0_l. reflexivity.
  - rewrite !py_sum_cons, IH. apply Qcplus_assoc.
Qed.

Lemma length_enumerate {A : Type} (l : list A) (s : Z) : length (enumerate l s) = length l.
Proof. revert s. induction l as [|x l IH]; intros s; cbn; [reflexivity|]. rewrite IH. reflexivity. Qed.

(** ** calculate_npv *)

Lemma npv_term_total (r : Qc) (t : Z) (cf : Qc) :
  -1 < r -> (0 <= t)%Z -> npv_term r (t, cf) = Ok (cf / (1 + r) ^ Z.to_nat t).
Proof.
  intros Hr Ht. unfold npv_term. rewrite py_pow_nonneg by assumption. cbn.
  apply py_div_nonzero, Qcpower_nonzero.
  intros H0. apply (Qclt_not_eq _ _ Hr).
  transitivity (1 + r - 1); [rewrite H0|]; ring.
Qed.

Lemma npv_terms_total (r : Qc) (cf : list Qc) (k : nat) :
  -1 < r ->
  comprehension (npv_term r) (enumerate cf (Z.of_nat k))
  = Ok ((fun t => nth (t - k) cf 0 / (1 + r) ^ t) <$> seq k (length cf)).
Proof.
  intros Hr. revert k. induction cf as [|c cf IH]; intros k; [reflexivity|].
  cbn [enumerate comprehension length seq fmap list_fmap].
  rewrite npv_term_total by (assumption || lia). cbn [bind].
  replace (Z.of_nat k + 1)%Z with (Z.of_nat (S k)) by lia.
  rewrite IH. cbn [bind]. rewrite Nat2Z.id, Nat.sub_diag. cbn [nth].
  do 2 f_equal. apply list_fmap_ext. intros i t Ht.
  apply lookup_seq in Ht as [-> Hi].
  replace (S k + i - k)%nat with (S i) by lia.
  replace (S k + i - S k)%nat with i by lia. reflexivity.
Qed.

Lemma big_sum_fmap (f : nat -> Qc) (lo n : nat) : py_sum (f <$> seq lo n) = big_sum f lo n.
Proof.
  rewrite py_sum_foldr. unfold big_sum.
  generalize (seq lo n). intros l. induction l as [|t l IH]; cbn; [reflexivity|].
  rewrite IH. reflexivity.
Qed.

Lemma calculate_npv_total (cf : list Qc) (r : Qc) :
  -1 < r -> calculate_npv cf r = Ok (npv_formula cf r).
Proof.
  intros Hr. unfold calculate_npv, npv_formula.
  change 1%Z with (Z.of_nat 1). rewrite npv_terms_total by assumption. cbn [bind].
  rewrite big_sum_fmap. reflexivity.
Qed.

Lemma Qc_closed (x y : Qc) : Qeq_bool x y = true -> x = y.
Proof. intros H. apply Qc_is_canon, Qeq_bool_eq, H. Qed.

Ltac qc_closed := apply Qc_closed; vm_compute; reflexivity.

Lemma Qc_list_closed (l k : list Qc) : this <$> l = this <$> k -> l = k.
Proof.
  revert k. induction l as [|x l IH]; intros [|y k] H; try discriminate H; [reflexivity|].
  cbn in H. injection H as Hxy Hlk. f_equal; [apply Qc_decomp, Hxy|apply IH, Hlk].
Qed.

Ltac qc_list_closed := apply Qc_list_closed; vm_compute; reflexivity.

(** C3.  For a discount rate above -1, [calculate_npv] returns
    [Σ_{t=1}^{n} cf[t−1] / (1+r)^t]: the first item is discounted one full
    period.  [calculate_npv] of [[100]] is 100 at rate 0 and 50 at rate 1. *)
Theorem calculate_npv_formula (cf : list Qc) (r : Qc) :
  -1 < r ->
  calculate_npv cf r = Ok (npv_formula cf r)
  /\ (forall c, calculate_npv [c] r = Ok (c / (1 + r) ^ 1))
  /\ calculate_npv [of_int 100] 0 = Ok (of_int 100)
  /\ calculate_npv [of_int 100] 1 = Ok (of_int 50).
Proof.
  intros Hr. split; [apply calculate_npv_total, Hr|]. split; [|split].
  - intros c. rewrite calculate_npv_total by assumption. f_equal.
    unfold npv_formula, big_sum. cbn. ring.
  - rewrite calculate_npv_total by reflexivity. f_equal. qc_closed.
  - rewrite calculate_npv_total by reflexivity. f_equal. qc_closed.
Qed.

Lemma calculate_npv_formula_witness :
  -1 < 1 /\ calculate_npv [of_int 100; of_int 200] 1 = Ok (of_int 100).
Proof.
  split; [reflexivity|].
  destruct (calculate_npv_formula [of_int 100; of_int 200] 1) as [H _]; [reflexivity|].
  rewrite H. f_equal. qc_closed.
Defined.

(** ** calculate_roi *)

(** C5.  With [total_investment >= 0], [calculate_roi] returns
    [(npv - total_investment) / total_investment * 100] when
    [total_investment > 0] and the NaN sentinel when [total_investment = 0];
    [calculate_roi 150 100] is 50. *)
Theorem calculate_roi_cases (npv total : Qc) :
  0 <= total ->
  (0 < total -> calculate_roi npv total = Ok (Num ((npv - total) / total * of_int 100)))
  /\ (total = 0 -> calculate_roi npv total = Ok NaN)
  /\ calculate_roi (of_int 150) (of_int 100) = Ok (Num (of_int 50)).
Proof.
  intros _. split; [|split].
  - intros Hpos. unfold calculate_roi.
    destruct (decide (0 < total)) as [_|Hn]; [|contradiction].
    rewrite py_div_nonzero; [reflexivity|].
    intros ->. exact (Qclt_not_eq _ _ Hpos eq_refl).
  - intros ->. reflexivity.
  - unfold calculate_roi.
    destruct (decide (0 < of_int 100)) as [_|Hn]; [|exfalso; apply Hn; reflexivity].
    rewrite py_div_nonzero by discriminate. cbn [bind]. do 2 f_equal. qc_closed.
Qed.

Lemma calculate_roi_cases_witness :
  0 <= of_int 200
  /\ calculate_roi (of_int 500) (of_int 200) = Ok (Num (of_int 150))
  /\ calculate_roi (of_int 500) 0 = Ok NaN.
Proof.
  split; [discriminate|].
  destruct (calculate_roi_cases (of_int 500) (of_int 200)) as [H _]; [discriminate|].
  destruct (calculate_roi_cases (of_int 500) 0) as (_ & H0 & _); [discriminate|].
  split; [|apply H0; reflexivity].
  rewrite H by reflexivity. do 2 f_equal. qc_closed.
Defined.

(** ** estimate_funding_requirements *)

Lemma dict_get_skip (pre post : dict) (k : string) :
  k ∉ dict_keys pre -> dict_get (pre ++ post) k = dict_get post k.
Proof.
  induction pre as [|[k' v'] pre IH]; intros Hk; [reflexivity|].
  cbn in *. apply not_elem_of_cons in Hk as [Hne Hk].
  destruct (decide (k' = k)) as [->|_]; [contradiction|]. apply IH, Hk.
Qed.

Lemma dict_set_new (pre : dict) (k : string) (v : Qc) :
  k ∉ dict_keys pre -> dict_set pre k v = pre ++ [(k, v)].
Proof.
  induction pre as [|[k' v'] pre IH]; intros Hk; [reflexivity|].
  cbn in *. apply not_elem_of_cons in Hk as [Hne Hk].
  destruct (decide (k' = k)) as [->|_]; [contradiction|]. rewrite IH by exact Hk. reflexivity.
Qed.

Lemma copy_entries_from (pre post : dict) :
  NoDup (dict_keys (pre ++ post)) ->
  for_each (copy_entry (pre ++ post)) pre (dict_keys post) = Ok (pre ++ post).
Proof.
  revert pre. induction post as [|[k v] post IH]; intros pre Hnodup.
  - cbn. rewrite app_nil_r. reflexivity.
  - assert (Hk : k ∉ dict_keys pre).
    { unfold dict_keys in *. rewrite fmap_app in Hnodup.
      apply list.NoDup_app in Hnodup as (_ & Hdisj & _).
      intros Hin. apply (Hdisj k Hin). cbn. apply list_elem_of_here. }
    cbn [dict_keys fmap list_fmap for_each fst]. unfold copy_entry at 1.
    rewrite dict_get_skip by exact Hk. cbn [dict_get].
    destruct (decide (k = k)) as [_|Hne]; [|contradiction]. cbn [bind].
    rewrite dict_set_new by exact Hk.
    replace (pre ++ (k, v) :: post) with ((pre ++ [(k, v)]) ++ post)
      by (rewrite <- app_assoc; reflexivity).
    apply IH. rewrite <- app_assoc. exact Hnodup.
Qed.

(** Over any cost table (a dictionary: its keys are distinct) the
    breakdown is the table and the total is the sum of its values. *)
Lemma funding_of_any_table (pipeline : list Qc) (phase_costs : dict) :
  NoDup (dict_keys phase_costs) ->
  estimate_funding_requirements pipeline phase_costs
  = Ok (Funding (py_sum (dict_values phase_costs)) phase_costs).
Proof.
  intros Hnodup. unfold estimate_funding_requirements.
  pose proof (copy_entries_from [] phase_costs Hnodup) as Hcopy. cbn [app] in Hcopy.
  rewrite Hcopy. reflexivity.
Qed.

Lemma funding_of_cost_table (pipeline : list Qc) :
  estimate_funding_requirements pipeline CLINICAL_DEVELOPMENT_COSTS
  = Ok (Funding (of_int 240000000) CLINICAL_DEVELOPMENT_COSTS).
Proof.
  unfold estimate_funding_requirements.
  replace (for_each (copy_entry CLINICAL_DEVELOPMENT_COSTS) []
             (dict_keys CLINICAL_DEVELOPMENT_COSTS))
    with (Ok CLINICAL_DEVELOPMENT_COSTS) by (vm_compute; reflexivity).
  cbn [bind]. do 2 f_equal. qc_closed.
Qed.

(** C4.  Whatever the cash-flow series, [estimate_funding_requirements]
    over the fixed cost table returns the total 240,000,000, the sum of the
    four phase costs, and the cost table itself as breakdown. *)
Theorem estimate_funding_requirements_constant (pipeline : list Qc) :
  estimate_funding_requirements pipeline CLINICAL_DEVELOPMENT_COSTS
  = Ok (Funding (of_int 240000000) CLINICAL_DEVELOPMENT_COSTS)
  /\ of_int 240000000
     = of_int 30000000 + of_int 10000000 + of_int 50000000 + of_int 150000000
  /\ dict_values CLINICAL_DEVELOPMENT_COSTS
     = [of_int 30000000; of_int 10000000; of_int 50000000; of_int 150000000].
Proof.
  split; [apply funding_of_cost_table|split; [qc_closed|reflexivity]].
Qed.

(** ** numpy.linspace *)

Lemma of_int_nonzero (n : Z) : n <> 0%Z -> of_int n <> 0.
Proof. intros Hn H. apply Hn, Z2Qc_inj. rewrite Z2Qc_inj_0. exact H. Qed.

Lemma of_int_nonneg (n : Z) : (0 <= n)%Z -> 0 <= of_int n.
Proof. intros Hn. rewrite <- Z2Qc_inj_0. exact (proj1 (Z2Qc_inj_le 0 n) Hn). Qed.

Lemma linspace_total (start stop : Qc) (num : Z) :
  (0 <= num)%Z -> linspace start stop num = Ok (linspace_items start stop num).
Proof.
  intros Hnum. unfold linspace, linspace_items.
  destruct (decide (num < 0)%Z) as [Hneg|_]; [lia|].
  destruct (decide (0 < num - 1)%Z) as [Hdiv|Hdiv]; [|reflexivity].
  rewrite py_div_nonzero by (apply of_int_nonzero; lia). cbn [bind].
  destruct (decide ((stop - start) / of_int (num - 1) = 0)) as [Hstep|Hstep]; [|reflexivity].
  rewrite (comprehension_total _ (fun v => v / of_int (num - 1))); [reflexivity|].
  apply Forall_forall. intros v _. apply py_div_nonzero, of_int_nonzero. lia.
Qed.

Lemma linspace_raises (start stop : Qc) (num : Z) :
  (num < 0)%Z -> linspace start stop num = Raise ValueError.
Proof. intros Hnum. unfold linspace. destruct (decide (num < 0)%Z); [reflexivity|lia]. Qed.

Lemma length_linspace_items (start stop : Qc) (num : Z) :
  length (linspace_items start stop num) = Z.to_nat num.
Proof.
  unfold linspace_items.
  repeat match goal with
         | |- context [decide ?P] => destruct (decide P)
         end;
    rewrite ?length_insert, ?length_fmap, length_seqZ; reflexivity.
Qed.

(** With one sample the step is never used: the item is [start]. *)
Lemma linspace_one (start stop : Qc) : linspace start stop 1 = Ok [start].
Proof.
  rewrite linspace_total by lia. f_equal. unfold linspace_items.
  destruct (decide (1 < 1)%Z); [lia|]. destruct (decide (0 < 1 - 1)%Z); [lia|].
  rewrite seqZ_cons, seqZ_nil by lia. cbn [fmap list_fmap].
  f_equal. unfold of_int. rewrite Z2Qc_inj_0. ring.
Qed.

(** With two samples or more the last item is [stop] and the first is [start]. *)
Lemma linspace_items_last (start stop : Qc) (num : Z) :
  (1 < num)%Z -> linspace_items start stop num !! Z.to_nat (num - 1) = Some stop.
Proof.
  intros Hnum. unfold linspace_items.
  destruct (decide (1 < num)%Z) as [_|Hn]; [|lia].
  apply list_lookup_insert_eq.
  repeat match goal with
         | |- context [decide ?P] => destruct (decide P)
         end;
    rewrite ?length_fmap, length_seqZ; lia.
Qed.

Lemma linspace_items_first (start stop : Qc) (num : Z) :
  (1 < num)%Z -> linspace_items start stop num !! 0%nat = Some start.
Proof.
  intros Hnum. unfold linspace_items.
  destruct (decide (1 < num)%Z) as [_|Hn]; [|lia].
  rewrite list_lookup_insert_ne by lia.
  destruct (decide (0 < num - 1)%Z) as [_|Hn]; [|lia].
  rewrite (seqZ_cons 0 num) by lia.
  destruct (decide ((stop - start) / of_int (num - 1) = 0));
    cbn [fmap list_fmap lookup list_lookup]; f_equal;
    unfold of_int; rewrite Z2Qc_inj_0; unfold Qcdiv; ring.
Qed.

Lemma Qcdiv_nonneg (x y : Qc) : 0 <= x -> 0 < y -> 0 <= x / y.
Proof.
  intros Hx Hy. unfold Qcdiv. apply Qcmult_nonneg_nonneg; [exact Hx|].
  apply Qclt_le_weak, Qcinv_pos, Hy.
Qed.

Lemma linspace_items_nonneg (start stop : Qc) (num : Z) :
  0 <= start -> start <= stop -> Forall (fun v => 0 <= v) (linspace_items start stop num).
Proof.
  intros Hstart Hle.
  assert (Hstop : 0 <= stop) by (eapply Qcle_trans; eassumption).
  assert (Hdelta : 0 <= stop - start).
  { unfold Qcminus. apply Qcle_minus_iff in Hle. exact Hle. }
  assert (Hy : Forall (fun v => 0 <= v) (of_int <$> seqZ 0 num)).
  { apply Forall_fmap, Forall_seqZ. intros i Hi. cbn. apply of_int_nonneg. lia. }
  assert (Hshift : forall l : list Qc,
             Forall (fun v => 0 <= v) l -> Forall (fun v => 0 <= v) ((fun v => v + start) <$> l)).
  { intros l Hl. apply Forall_fmap. eapply Forall_impl; [|exact Hl].
    intros v Hv. cbn. apply Qcplus_nonneg_nonneg; assumption. }
  assert (Hscale : forall (c : Qc) (l : list Qc), 0 <= c ->
             Forall (fun v => 0 <= v) l -> Forall (fun v => 0 <= v) ((fun v => v * c) <$> l)).
  { intros c l Hc Hl. apply Forall_fmap. eapply Forall_impl; [|exact Hl].
    intros v Hv. cbn. apply Qcmult_nonneg_nonneg; assumption. }
  assert (Hscaled : Forall (fun v => 0 <= v)
            (if decide (0 < num - 1)%Z then
               if decide ((stop - start) / of_int (num - 1) = 0)
               then (fun v => v * (stop - start))
                      <$> ((fun v => v / of_int (num - 1)) <$> (of_int <$> seqZ 0 num))
               else (fun v => v * ((stop - start) / of_int (num - 1)))
                      <$> (of_int <$> seqZ 0 num)
             else (fun v => v * (stop - start)) <$> (of_int <$> seqZ 0 num))).
  { destruct (decide (0 < num - 1)%Z) as [Hdiv|Hdiv]; [|apply Hscale; assumption].
    assert (Hpos : 0 < of_int (num - 1)).
    { rewrite <- Z2Qc_inj_0. exact (proj1 (Z2Qc_inj_lt 0 (num - 1)) Hdiv). }
    destruct (decide ((stop - start) / of_int (num - 1) = 0)).
    - apply Hscale; [exact Hdelta|]. apply Forall_fmap.
      eapply Forall_impl; [|exact Hy]. intros v Hv. cbn. apply Qcdiv_nonneg; assumption.
    - apply Hscale; [|exact Hy]. apply Qcdiv_nonneg; assumption. }
  unfold linspace_items.
  destruct (decide (1 < num)%Z); [apply Forall_insert; [|exact Hstop]|]; apply Hshift, Hscaled.
Qed.

(** ** calculate_revenue_curve *)

Lemma peak_revenue_of_total (P price m : Qc) :
  peak_revenue_of P price m = Ok (P * price * (m / of_int 100)).
Proof.
  unfold peak_revenue_of. rewrite py_div_nonzero; [reflexivity|].
  apply of_int_nonzero. lia.
Qed.

Lemma ramp_curve_total (pr : Qc) (r : Z) :
  (0 <= r)%Z ->
  ramp_curve pr r = Ok ((fun p => pr * p) <$> linspace_items (Q2Qc (1 # 10)) 1 r).
Proof. intros Hr. unfold ramp_curve. rewrite linspace_total by assumption. reflexivity. Qed.

Lemma decline_curve_total (pr : Qc) (d : Z) (rho : Qc) :
  decline_curve pr d rho
  = Ok ((fun year => pr * (1 - rho) ^ Z.to_nat year) <$> range2 1 (d + 1)).
Proof.
  unfold decline_curve. apply comprehension_total.
  apply Forall_seqZ. intros year Hyear. unfold decline_term.
  rewrite py_pow_nonneg by lia. reflexivity.
Qed.

Lemma lookup_range2 (lo hi : Z) (i : nat) :
  (Z.of_nat i < hi - lo)%Z -> range2 lo hi !! i = Some (lo + Z.of_nat i)%Z.
Proof. intros Hi. unfold range2. apply lookup_seqZ_lt, Hi. Qed.

Lemma length_range2 (lo hi : Z) : length (range2 lo hi) = Z.to_nat (hi - lo).
Proof. unfold range2. apply length_seqZ. Qed.

Lemma ramp_curve_single (pr : Qc) : ramp_curve pr 1 = Ok [pr * Q2Qc (1 # 10)].
Proof. unfold ramp_curve. rewrite linspace_one. reflexivity. Qed.

(** With [ramp_years >= 2] the ramp starts at [0.1 × peak_revenue] and
    ends at [1.0 × peak_revenue]. *)
Lemma ramp_curve_endpoints (pr : Qc) (r : Z) :
  (2 <= r)%Z ->
  exists ramp : list Qc,
    ramp_curve pr r = Ok ramp
    /\ ramp !! 0%nat = Some (pr * Q2Qc (1 # 10))
    /\ ramp !! Z.to_nat (r - 1) = Some (pr * 1).
Proof.
  intros Hr. eexists. split; [apply ramp_curve_total; lia|].
  rewrite !list_lookup_fmap, linspace_items_first, linspace_items_last by lia.
  split; reflexivity.
Qed.

(** C7.  The decline-phase value of year [t = 1..d] is
    [peak_revenue × (1 − ρ)^t]; with [ρ = 0] every value is [peak_revenue],
    with [ρ = 1] every value, year 1 included, is 0. *)
Theorem decline_curve_values (peak_revenue : Qc) (d : Z) (rho : Qc) :
  0 <= peak_revenue -> (1 <= d)%Z -> 0 <= rho -> rho <= 1 ->
  exists l : list Qc,
    decline_curve peak_revenue d rho = Ok l
    /\ length l = Z.to_nat d
    /\ (forall t : nat, (1 <= t <= Z.to_nat d)%nat ->
          l !! (t - 1)%nat = Some (peak_revenue * (1 - rho) ^ t))
    /\ (rho = 0 -> Forall (fun v => v = peak_revenue) l)
    /\ (rho = 1 -> Forall (fun v => v = 0) l).
Proof.
  intros _ Hd _ _. eexists. split; [apply decline_curve_total|].
  split; [|split; [|split]].
  - rewrite length_fmap, length_range2. f_equal. lia.
  - intros t Ht. rewrite list_lookup_fmap, lookup_range2 by lia. cbn.
    do 3 f_equal. lia.
  - intros ->. apply Forall_fmap, Forall_forall. intros year _. cbn.
    replace (1 - 0) with 1 by ring. rewrite Qcpower_1. ring.
  - intros ->. apply Forall_fmap, Forall_seqZ. intros year Hyear. cbn.
    replace (1 - 1) with 0 by ring. rewrite Qcpower_0 by lia. ring.
Qed.

Lemma decline_curve_values_witness :
  0 <= of_int 1000 /\ (1 <= 3)%Z /\ 0 <= Q2Qc (1 # 2) /\ Q2Qc (1 # 2) <= 1
  /\ decline_curve (of_int 1000) 3 (Q2Qc (1 # 2))
     = Ok [of_int 500; of_int 250; of_int 125].
Proof.
  repeat (split; [discriminate|]).
  destruct (decline_curve_values (of_int 1000) 3 (Q2Qc (1 # 2)))
    as (l & Hl & Hlen & Hval & _); try discriminate.
  rewrite Hl. f_equal.
  destruct l as [|x [|y [|z [|? ?]]]]; try discriminate Hlen.
  pose proof (Hval 1%nat ltac:(cbn; lia)) as H1.
  pose proof (Hval 2%nat ltac:(cbn; lia)) as H2.
  pose proof (Hval 3%nat ltac:(cbn; lia)) as H3.
  cbn in H1, H2, H3. injection H1 as ->. injection H2 as ->. injection H3 as ->.
  f_equal; [|f_equal; [|f_equal]]; qc_closed.
Defined.

Lemma calculate_revenue_curve_total (P price m : Qc) (r k d : Z) (rho : Qc) :
  (0 <= r)%Z ->
  calculate_revenue_curve P price m r k d rho
  = Ok (((fun p => P * price * (m / of_int 100) * p) <$> linspace_items (Q2Qc (1 # 10)) 1 r)
        ++ peak_curve (P * price * (m / of_int 100)) k
        ++ ((fun year => P * price * (m / of_int 100) * (1 - rho) ^ Z.to_nat year)
              <$> range2 1 (d + 1))).
Proof.
  intros Hr. unfold calculate_revenue_curve.
  rewrite peak_revenue_of_total. cbn [bind].
  rewrite ramp_curve_total by assumption. cbn [bind].
  rewrite decline_curve_total. reflexivity.
Qed.

Lemma calculate_revenue_curve_raises (P price m : Qc) (r k d : Z) (rho : Qc) :
  (r < 0)%Z -> calculate_revenue_curve P price m r k d rho = Raise ValueError.
Proof.
  intros Hr. unfold calculate_revenue_curve.
  rewrite peak_revenue_of_total. cbn [bind].
  unfold ramp_curve. rewrite linspace_raises by assumption. reflexivity.
Qed.

(** C2.  The claim fails on the code.  With [ramp_years = 1] the ramp phase
    is the one item [0.1 × peak_revenue], the bottom of the interpolation
    range: at [peak_revenue = 100] it is [[10]], not [[100]], and the curve
    of one ramp, one peak and one decline year starts 10, 100.  With
    [ramp_years = 2] the ramp does end at [peak_revenue]. *)
Theorem ramp_curve_one_year_misses_peak :
  ramp_curve (of_int 100) 1 = Ok [of_int 10]
  /\ ramp_curve (of_int 100) 1 <> Ok [1 * of_int 100]
  /\ calculate_revenue_curve (of_int 1) (of_int 100) (of_int 100) 1 1 1 (Q2Qc (1 # 10))
     = Ok [of_int 10; of_int 100; of_int 90]
  /\ ramp_curve (of_int 100) 2 = Ok [of_int 10; of_int 100]
  /\ (forall peak_revenue : Qc, ramp_curve peak_revenue 1 = Ok [peak_revenue * Q2Qc (1 # 10)]).
Proof.
  split; [|split; [|split; [|split]]].
  - rewrite ramp_curve_single. f_equal. qc_list_closed.
  - rewrite ramp_curve_single. intros H. inversion H.
  - rewrite calculate_revenue_curve_total by lia. f_equal. qc_list_closed.
  - rewrite ramp_curve_total by lia. f_equal. qc_list_closed.
  - apply ramp_curve_single.
Qed.

(** C6.  [peak_revenue = P × price × (m / 100)]; the revenue curve is
    ramp ∥ peak ∥ decline in that order, of length [r + k + d], and every
    value of the peak phase is [peak_revenue]. *)
Theorem calculate_revenue_curve_shape (P price m : Qc) (r k d : Z) (rho : Qc) :
  0 <= P -> 0 <= price -> 0 <= m -> m <= of_int 100 ->
  (1 <= r)%Z -> (1 <= k)%Z -> (1 <= d)%Z -> 0 <= rho -> rho <= 1 ->
  exists (peak_revenue : Qc) (ramp decline curve : list Qc),
    peak_revenue = P * price * (m / of_int 100)
    /\ peak_revenue_of P price m = Ok peak_revenue
    /\ ramp_curve peak_revenue r = Ok ramp
    /\ decline_curve peak_revenue d rho = Ok decline
    /\ calculate_revenue_curve P price m r k d rho = Ok curve
    /\ curve = ramp ++ peak_curve peak_revenue k ++ decline
    /\ length ramp = Z.to_nat r
    /\ length (peak_curve peak_revenue k) = Z.to_nat k
    /\ length decline = Z.to_nat d
    /\ Z.of_nat (length curve) = (r + k + d)%Z
    /\ (forall i : nat, (i < Z.to_nat k)%nat ->
          curve !! (Z.to_nat r + i)%nat = Some peak_revenue).
Proof.
  intros _ _ _ _ Hr Hk Hd _ _.
  set (pr := P * price * (m / of_int 100)).
  set (ramp := (fun p => pr * p) <$> linspace_items (Q2Qc (1 # 10)) 1 r).
  set (decline := (fun year => pr * (1 - rho) ^ Z.to_nat year) <$> range2 1 (d + 1)).
  assert (Hramp : length ramp = Z.to_nat r).
  { unfold ramp. rewrite length_fmap. apply length_linspace_items. }
  assert (Hpeak : length (peak_curve pr k) = Z.to_nat k).
  { unfold peak_curve, list_times. apply length_replicate. }
  assert (Hdecline : length decline = Z.to_nat d).
  { unfold decline. rewrite length_fmap, length_range2. f_equal. lia. }
  exists pr, ramp, decline, (ramp ++ peak_curve pr k ++ decline).
  split; [reflexivity|]. split; [apply peak_revenue_of_total|].
  split; [apply ramp_curve_total; lia|]. split; [apply decline_curve_total|].
  split; [apply calculate_revenue_curve_total; lia|]. split; [reflexivity|].
  split; [exact Hramp|]. split; [exact Hpeak|]. split; [exact Hdecline|]. split.
  - rewrite !length_app, Hramp, Hpeak, Hdecline. lia.
  - intros i Hi. rewrite lookup_app_r by lia.
    rewrite Hramp. replace (Z.to_nat r + i - Z.to_nat r)%nat with i by lia.
    rewrite lookup_app_l by lia.
    unfold peak_curve, list_times. apply lookup_replicate_2, Hi.
Qed.

Lemma calculate_revenue_curve_shape_witness :
  0 <= of_int 10 /\ 0 <= of_int 20 /\ 0 <= of_int 50 /\ of_int 50 <= of_int 100
  /\ (1 <= 2)%Z /\ (1 <= 2)%Z /\ (1 <= 1)%Z /\ 0 <= Q2Qc (1 # 2) /\ Q2Qc (1 # 2) <= 1
  /\ exists curve : list Qc,
       calculate_revenue_curve (of_int 10) (of_int 20) (of_int 50) 2 2 1 (Q2Qc (1 # 2))
       = Ok curve
       /\ length curve = 5%nat
       /\ curve !! 2%nat = Some (of_int 100)
       /\ curve !! 3%nat = Some (of_int 100).
Proof.
  repeat (split; [discriminate|]).
  destruct (calculate_revenue_curve_shape
              (of_int 10) (of_int 20) (of_int 50) 2 2 1 (Q2Qc (1 # 2)))
    as (pr & ramp & decline & curve & Hpr & _ & _ & _ & Hcurve & _ & _ & _ & _ & Hlen & Hval);
    try discriminate.
  assert (Hpr' : pr = of_int 100) by (rewrite Hpr; qc_closed).
  exists curve. split; [exact Hcurve|]. split; [lia|].
  rewrite <- Hpr'. split.
  - apply (Hval 0%nat). cbn. lia.
  - apply (Hval 1%nat). cbn. lia.
Defined.

(** ** simulate_pipeline_cash_flows *)

Lemma range_const {A : Type} (x : A) (n : Z) :
  (fun _ => x) <$> range n = replicate (Z.to_nat n) x.
Proof.
  rewrite <- (Z.sub_0_r n) at 2. rewrite <- (length_range2 0 n).
  apply const_fmap. reflexivity.
Qed.

(** C8.  The simulated series is [delay_years] copies of -500,000,000
    followed by the revenue curve of the same inputs; the per-year constant
    does not depend on the asset parameters. *)
Theorem simulate_pipeline_cash_flows_shape
    (P price m : Qc) (delay r k d : Z) (rho : Qc) :
  (0 <= delay)%Z ->
  exists n : nat,
    Z.of_nat n = delay
    /\ simulate_pipeline_cash_flows P price m delay r k d rho
       = (let! revenue_curve := calculate_revenue_curve P price m r k d rho in
          Ok (replicate n (of_int (-500000000)) ++ revenue_curve))
    /\ ((0 <= r)%Z ->
        exists revenue_curve : list Qc,
          calculate_revenue_curve P price m r k d rho = Ok revenue_curve
          /\ simulate_pipeline_cash_flows P price m delay r k d rho
             = Ok (replicate n (of_int (-500000000)) ++ revenue_curve)).
Proof.
  intros Hdelay. exists (Z.to_nat delay). split; [lia|].
  assert (Heq : simulate_pipeline_cash_flows P price m delay r k d rho
                = (let! revenue_curve := calculate_revenue_curve P price m r k d rho in
                   Ok (replicate (Z.to_nat delay) (of_int (-500000000)) ++ revenue_curve))).
  { unfold simulate_pipeline_cash_flows. rewrite range_const. reflexivity. }
  split; [exact Heq|].
  intros Hr. eexists. split; [apply calculate_revenue_curve_total, Hr|].
  rewrite Heq, calculate_revenue_curve_total by assumption. reflexivity.
Qed.

Lemma simulate_pipeline_cash_flows_shape_witness :
  (0 <= 2)%Z
  /\ simulate_pipeline_cash_flows 1 1 (of_int 100) 2 1 1 2 (Q2Qc (1 # 2))
     = Ok [of_int (-500000000); of_int (-500000000);
           Q2Qc (1 # 10); 1; Q2Qc (1 # 2); Q2Qc (1 # 4)].
Proof.
  split; [discriminate|].
  destruct (simulate_pipeline_cash_flows_shape 1 1 (of_int 100) 2 1 1 2 (Q2Qc (1 # 2)))
    as (n & Hn & Heq & _); [discriminate|].
  rewrite Heq. assert (n = 2%nat) as -> by lia.
  rewrite calculate_revenue_curve_total by discriminate. cbn [bind replicate app].
  f_equal; qc_list_closed.
Defined.

(** ** The loop of main *)

(** C9.  Risk adjustment binds a new series of the same length and order
    whose i-th item is [p] times the i-th item of [cash_flows]; [cash_flows]
    itself, like the other variables, is left as it was. *)
Theorem risk_adjustment_elementwise (f : frame) (p : Qc) :
  0 <= p -> p <= 1 ->
  length (risk_adjusted_cash_flows (assign_risk_adjusted p f)) = length (cash_flows f)
  /\ (forall (i : nat) (cf : Qc),
        cash_flows f !! i = Some cf ->
        risk_adjusted_cash_flows (assign_risk_adjusted p f) !! i = Some (p * cf))
  /\ (forall i : nat,
        cash_flows f !! i = None ->
        risk_adjusted_cash_flows (assign_risk_adjusted p f) !! i = None)
  /\ cash_flows (assign_risk_adjusted p f) = cash_flows f
  /\ pipeline_cash_flows (assign_risk_adjusted p f) = pipeline_cash_flows f
  /\ total_investment (assign_risk_adjusted p f) = total_investment f.
Proof.
  intros _ _. cbn. split; [apply length_fmap|]. split; [|split; [|auto]].
  - intros i cf Hi. rewrite list_lookup_fmap, Hi. cbn. f_equal. apply Qcmult_comm.
  - intros i Hi. rewrite list_lookup_fmap, Hi. reflexivity.
Qed.

Lemma risk_adjustment_elementwise_witness :
  0 <= Q2Qc (6 # 10) /\ Q2Qc (6 # 10) <= 1
  /\ risk_adjusted_cash_flows
       (assign_risk_adjusted (Q2Qc (6 # 10)) (Frame [] 0 [of_int 10; of_int (-5)] []))
     !! 1%nat = Some (Q2Qc (6 # 10) * of_int (-5))
  /\ cash_flows (assign_risk_adjusted (Q2Qc (6 # 10)) (Frame [] 0 [of_int 10; of_int (-5)] []))
     = [of_int 10; of_int (-5)].
Proof.
  split; [discriminate|]. split; [discriminate|].
  destruct (risk_adjustment_elementwise
              (Frame [] 0 [of_int 10; of_int (-5)] []) (Q2Qc (6 # 10)))
    as (_ & Hval & _ & Hsame & _); try discriminate.
  split; [apply Hval; reflexivity|exact Hsame].
Defined.

(** One pass of the loop, from the asset's raw series and probability. *)
Lemma loop_body_total (f : frame) (a : asset) (raw : list Qc) (p : Qc) :
  asset_cash_flows a = Ok raw ->
  dict_get (probabilities_of a) (phase a) = Ok p ->
  loop_body f a
  = Ok (Frame (pipeline_cash_flows f ++ ((fun cf => cf * p) <$> raw))
              (total_investment f + investment_of raw)
              raw ((fun cf => cf * p) <$> raw)).
Proof.
  intros Hraw Hp. unfold loop_body, assign_cash_flows. rewrite Hp, Hraw. reflexivity.
Qed.

Lemma for_each_loop_body (assets : list asset) (series : list (list Qc * Qc)) (f0 : frame) :
  Forall2 series_of assets series ->
  exists f : frame,
    for_each loop_body f0 assets = Ok f
    /\ pipeline_cash_flows f = pipeline_cash_flows f0 ++ concat (risk_adjusted <$> series)
    /\ total_investment f
       = total_investment f0 + py_sum ((fun s => investment_of (fst s)) <$> series).
Proof.
  intros H. revert f0. induction H as [|a s assets series [Hraw Hp] _ IH]; intros f0.
  - exists f0. split; [reflexivity|]. cbn. rewrite app_nil_r. split; [reflexivity|].
    unfold py_sum. cbn. ring.
  - cbn [for_each]. rewrite (loop_body_total f0 a _ _ Hraw Hp). cbn [bind].
    destruct (IH (Frame (pipeline_cash_flows f0 ++ ((fun cf => cf * snd s) <$> fst s))
                        (total_investment f0 + investment_of (fst s))
                        (fst s) ((fun cf => cf * snd s) <$> fst s)))
      as (f & Hf & Hpipe & Htotal).
    exists f. split; [exact Hf|]. split.
    + rewrite Hpipe. cbn. rewrite <- app_assoc. reflexivity.
    + rewrite Htotal. cbn [fmap list_fmap total_investment]. rewrite py_sum_cons. ring.
Qed.

(** ** Assets in the widgets' ranges *)

Lemma revenue_curve_nonneg (P price m : Qc) (r k d : Z) (rho : Qc) :
  0 <= P -> 0 <= price -> 0 <= m -> rho <= 1 -> (0 <= r)%Z ->
  exists curve : list Qc,
    calculate_revenue_curve P price m r k d rho = Ok curve
    /\ Forall (fun v => 0 <= v) curve.
Proof.
  intros HP Hprice Hm Hrho Hr. eexists. split; [apply calculate_revenue_curve_total, Hr|].
  assert (Hpr : 0 <= P * price * (m / of_int 100)).
  { apply Qcmult_nonneg_nonneg; [apply Qcmult_nonneg_nonneg; assumption|].
    apply Qcdiv_nonneg; [assumption|reflexivity]. }
  apply Forall_app. split; [|apply Forall_app; split].
  - apply Forall_fmap. eapply Forall_impl; [|apply linspace_items_nonneg; discriminate].
    intros p Hp. cbn. apply Qcmult_nonneg_nonneg; assumption.
  - unfold peak_curve, list_times. apply Forall_replicate, Hpr.
  - apply Forall_fmap, Forall_forall. intros year _. cbn.
    apply Qcmult_nonneg_nonneg; [assumption|]. apply Qcpower_pos.
    unfold Qcminus. apply Qcle_minus_iff in Hrho. exact Hrho.
Qed.

Lemma simulate_no_delay (P price m : Qc) (r k d : Z) (rho : Qc) :
  simulate_pipeline_cash_flows P price m 0 r k d rho
  = calculate_revenue_curve P price m r k d rho.
Proof.
  unfold simulate_pipeline_cash_flows. rewrite range_const. cbn [Z.to_nat replicate app].
  destruct (calculate_revenue_curve P price m r k d rho); reflexivity.
Qed.

Lemma valid_asset_cash_flows (a : asset) :
  valid_asset a ->
  exists raw : list Qc, asset_cash_flows a = Ok raw /\ Forall (fun v => 0 <= v) raw.
Proof.
  intros [_ Hpop Hpen Hprice Hramp _ _ [_ Hrate]].
  unfold asset_cash_flows. rewrite simulate_no_delay.
  apply revenue_curve_nonneg; try assumption; try (apply of_int_nonneg; lia). lia.
Qed.

Lemma valid_asset_probability (a : asset) :
  valid_asset a -> exists p : Qc, dict_get (probabilities_of a) (phase a) = Ok p.
Proof.
  intros [Hphase _ _ _ _ _ _ _]. unfold probabilities_of in *.
  destruct (rare_disease a); cbn in Hphase;
    repeat (apply elem_of_cons in Hphase as [->|Hphase]; [eexists; reflexivity|]);
    inversion Hphase.
Qed.

Lemma valid_assets_series (assets : list asset) :
  Forall valid_asset assets ->
  exists series : list (list Qc * Qc),
    Forall2 series_of assets series
    /\ Forall (fun s => Forall (fun v => 0 <= v) (fst s)) series.
Proof.
  induction 1 as [|a assets Ha _ (series & Hseries & Hnonneg)].
  - exists []. split; constructor.
  - destruct (valid_asset_cash_flows a Ha) as (raw & Hraw & Hpos).
    destruct (valid_asset_probability a Ha) as (p & Hp).
    exists ((raw, p) :: series). split; constructor; try assumption. split; assumption.
Qed.

Lemma investment_of_nonneg (raw : list Qc) :
  Forall (fun v => 0 <= v) raw -> investment_of raw = 0.
Proof.
  intros H. unfold investment_of.
  replace (filter (fun cf => cf < 0) raw) with (@nil Qc); [qc_closed|].
  symmetry. induction H as [|v raw Hv _ IH]; [reflexivity|].
  rewrite filter_cons_False; [exact IH|]. apply Qcle_not_lt, Hv.
Qed.

Lemma default_rate_above_minus_one : -1 < DEFAULT_DISCOUNT_RATE.
Proof. reflexivity. Qed.

Lemma main_total (assets : list asset) (f : frame) :
  run_loop assets = Ok f ->
  exists r : roi_value,
    calculate_roi (npv_formula (pipeline_cash_flows f) DEFAULT_DISCOUNT_RATE)
                  (total_investment f) = Ok r
    /\ main assets
       = Ok (Results (npv_formula (pipeline_cash_flows f) DEFAULT_DISCOUNT_RATE)
                     (Funding (of_int 240000000) CLINICAL_DEVELOPMENT_COSTS) r).
Proof.
  intros Hf. unfold main. rewrite Hf. cbn [bind].
  rewrite calculate_npv_total by apply default_rate_above_minus_one. cbn [bind].
  rewrite funding_of_cost_table. cbn [bind].
  unfold calculate_roi. destruct (decide (0 < total_investment f)) as [Hpos|Hnpos].
  - rewrite py_div_nonzero.
    + eexists. split; reflexivity.
    + intros H0. rewrite H0 in Hpos. exact (Qclt_not_eq _ _ Hpos eq_refl).
  - eexists. split; reflexivity.
Qed.

Lemma py_sum_zeros (l : list Qc) : Forall (fun v => v = 0) l -> py_sum l = 0.
Proof.
  induction 1 as [|v l -> _ IH]; [reflexivity|].
  rewrite py_sum_cons, IH. ring.
Qed.

(** C10.  With the widgets' ranges and [delay_years = 0], every item of the
    simulated series is non-negative; so in [main], whatever the portfolio,
    [total_investment] ends at 0 and the ROI is the NaN sentinel. *)
Theorem no_delay_no_investment (assets : list asset) :
  (1 <= length assets <= 10)%nat -> Forall valid_asset assets ->
  (forall (P price m : Qc) (r k d : Z) (rho : Qc),
      0 <= P -> 0 <= price -> 0 <= m -> m <= of_int 100 -> 0 <= rho -> rho <= 1 ->
      (0 <= r)%Z ->
      exists series : list Qc,
        simulate_pipeline_cash_flows P price m 0 r k d rho = Ok series
        /\ Forall (fun v => 0 <= v) series)
  /\ Forall (fun a => exists raw : list Qc,
                 asset_cash_flows a = Ok raw /\ Forall (fun v => 0 <= v) raw) assets
  /\ exists (f : frame) (out : results),
       run_loop assets = Ok f
       /\ total_investment f = 0
       /\ main assets = Ok out
       /\ roi out = NaN.
Proof.
  intros _ Hvalid. split; [|split].
  - intros P price m r k d rho HP Hprice Hm _ _ Hrho Hr.
    rewrite simulate_no_delay. apply revenue_curve_nonneg; assumption.
  - eapply Forall_impl; [|exact Hvalid]. apply valid_asset_cash_flows.
  - destruct (valid_assets_series assets Hvalid) as (series & Hseries & Hnonneg).
    destruct (for_each_loop_body assets series initial_frame Hseries)
      as (f & Hf & _ & Htotal).
    assert (Hzero : total_investment f = 0).
    { rewrite Htotal. cbn [initial_frame total_investment]. rewrite py_sum_zeros; [ring|].
      apply Forall_fmap. eapply Forall_impl; [|exact Hnonneg].
      intros s Hs. cbn. apply investment_of_nonneg, Hs. }
    destruct (main_total assets f Hf) as (r & Hr & Hmain).
    exists f. eexists. split; [exact Hf|]. split; [exact Hzero|]. split; [exact Hmain|].
    cbn. rewrite Hzero in Hr. cbn in Hr. injection Hr as <-. reflexivity.
Qed.

(** C1.  For a portfolio of 1 to 10 assets whose passes of the loop return
    the raw series and probabilities [series], the NPV [main] reports is one
    NPV calculation over the concatenation, in asset order, of the assets'
    risk-adjusted series, the k-th item of the concatenation discounted with
    period k; [total_investment] is the sum over the assets of the absolute
    value of the sum of the negative items of the asset's raw series.  The
    passes of the loop return for every asset in the widgets' ranges. *)
Theorem portfolio_aggregation (assets : list asset) :
  (1 <= length assets <= 10)%nat ->
  (forall series : list (list Qc * Qc),
      Forall2 series_of assets series ->
      exists (f : frame) (out : results),
        run_loop assets = Ok f
        /\ pipeline_cash_flows f
           = concat ((fun s : list Qc * Qc => (fun cf => cf * snd s) <$> fst s) <$> series)
        /\ total_investment f
           = py_sum ((fun s : list Qc * Qc =>
                        Qcabs (py_sum (filter (fun cf => cf < 0) (fst s)))) <$> series)
        /\ main assets = Ok out
        /\ calculate_npv (pipeline_cash_flows f) DEFAULT_DISCOUNT_RATE = Ok (npv_pipeline out)
        /\ npv_pipeline out
           = big_sum (fun k => nth (k - 1) (pipeline_cash_flows f) 0
                               / (1 + DEFAULT_DISCOUNT_RATE) ^ k)
                     1 (length (pipeline_cash_flows f)))
  /\ (Forall valid_asset assets ->
      exists series : list (list Qc * Qc), Forall2 series_of assets series).
Proof.
  intros _. split.
  - intros series Hseries.
    destruct (for_each_loop_body assets series initial_frame Hseries)
      as (f & Hf & Hpipe & Htotal).
    destruct (main_total assets f Hf) as (r & _ & Hmain).
    exists f. eexists. split; [exact Hf|]. split; [exact Hpipe|]. split.
    { rewrite Htotal. cbn [initial_frame total_investment]. apply Qcplus_0_l. }
    split; [exact Hmain|]. cbn [npv_pipeline]. split; [|reflexivity].
    apply calculate_npv_total, default_rate_above_minus_one.
  - intros Hvalid. destruct (valid_assets_series assets Hvalid) as (series & Hseries & _).
    exists series. exact Hseries.
Qed.

Lemma sample_portfolio_valid : Forall valid_asset sample_portfolio.
Proof.
  repeat constructor; cbn; lia || discriminate.
Qed.

Lemma loss_portfolio_series : Forall2 series_of loss_portfolio loss_series.
Proof.
  unfold loss_portfolio, loss_series.
  constructor; [split|constructor; [split|constructor]]; cbn [fst snd];
    try reflexivity;
    unfold asset_cash_flows;
    rewrite simulate_no_delay, calculate_revenue_curve_total by (cbn; lia);
    f_equal; qc_list_closed.
Qed.

Lemma portfolio_aggregation_witness :
  (1 <= length loss_portfolio <= 10)%nat
  /\ Forall2 series_of loss_portfolio loss_series
  /\ exists (f : frame) (out : results),
       run_loop loss_portfolio = Ok f
       /\ pipeline_cash_flows f
          = [of_int 60; of_int 600; of_int (-600);
             of_int 240000; of_int 2400000; of_int 1200000]
       /\ total_investment f = of_int 1000
       /\ main loss_portfolio = Ok out
       /\ calculate_npv (pipeline_cash_flows f) DEFAULT_DISCOUNT_RATE = Ok (npv_pipeline out).
Proof.
  split; [cbn; lia|]. split; [exact loss_portfolio_series|].
  destruct (portfolio_aggregation loss_portfolio) as [Hagg _]; [cbn; lia|].
  destruct (Hagg loss_series loss_portfolio_series)
    as (f & out & Hf & Hpipe & Htotal & Hmain & Hnpv & _).
  exists f, out. split; [exact Hf|]. split; [|split; [|split; assumption]].
  - rewrite Hpipe. qc_list_closed.
  - rewrite Htotal. qc_closed.
Defined.

Lemma no_delay_no_investment_witness :
  (1 <= length sample_portfolio <= 10)%nat
  /\ Forall valid_asset sample_portfolio
  /\ exists (f : frame) (out : results),
       run_loop sample_portfolio = Ok f
       /\ total_investment f = 0
       /\ main sample_portfolio = Ok out
       /\ roi out = NaN.
Proof.
  split; [cbn; lia|]. split; [exact sample_portfolio_valid|].
  apply (no_delay_no_investment sample_portfolio);
    [cbn; lia|exact sample_portfolio_valid].
Defined.

(** ** The example of the defaults: one asset, not rare, Phase 1, population
    1000, price 100,000, penetration 50, 6 + 7 + 8 years, decline rate 0.1 *)

Example default_asset_peak_revenue :
  peak_revenue_of (of_int 1000) (of_int 100000) (of_int 50) = Ok (of_int 50000000).
Proof. rewrite peak_revenue_of_total. f_equal. qc_closed. Qed.

Example default_asset_run :
  exists (f : frame) (out : results),
    run_loop [Asset false "Phase 1" 1000 50 (of_int 100000) 6 7 8 (Q2Qc (1 # 10))] = Ok f
    /\ length (pipeline_cash_flows f) = 21%nat
    /\ pipeline_cash_flows f !! 0%nat = Some (of_int 3000000)
    /\ pipeline_cash_flows f !! 5%nat = Some (of_int 30000000)
    /\ total_investment f = 0
    /\ main [Asset false "Phase 1" 1000 50 (of_int 100000) 6 7 8 (Q2Qc (1 # 10))] = Ok out
    /\ roi out = NaN
    /\ total_funding (funding_requirements out) = of_int 240000000.
Proof.
  assert (Hrun : exists f,
             run_loop [Asset false "Phase 1" 1000 50 (of_int 100000) 6 7 8 (Q2Qc (1 # 10))]
             = Ok f
             /\ length (pipeline_cash_flows f) = 21%nat
             /\ (this <$> pipeline_cash_flows f !! 0%nat) = Some (inject_Z 3000000)
             /\ (this <$> pipeline_cash_flows f !! 5%nat) = Some (inject_Z 30000000)
             /\ this (total_investment f) = inject_Z 0).
  { vm_compute. eexists. repeat split; reflexivity. }
  destruct Hrun as (f & Hf & Hlen & H0 & H5 & Hti).
  assert (Hzero : total_investment f = 0) by (apply Qc_decomp; exact Hti).
  destruct (main_total _ f Hf) as (r & Hr & Hmain).
  exists f. eexists. split; [exact Hf|]. split; [exact Hlen|].
  split; [|split; [|split; [exact Hzero|split; [exact Hmain|]]]].
  - destruct (pipeline_cash_flows f !! 0%nat) as [x|]; [|discriminate H0].
    f_equal. apply Qc_decomp. cbn in H0. injection H0 as ->. reflexivity.
  - destruct (pipeline_cash_flows f !! 5%nat) as [x|]; [|discriminate H5].
    f_equal. apply Qc_decomp. cbn in H5. injection H5 as ->. reflexivity.
  - cbn. rewrite Hzero in Hr. cbn in Hr. injection Hr as <-. split; reflexivity.
Qed.

(** * Further properties *)

(** ** calculate_npv: where it raises, and how it composes *)

Lemma one_plus_nonzero (r : Qc) : r <> -1 -> 1 + r <> 0.
Proof.
  intros Hr H0. apply Hr. transitivity (1 + r - 1); [|rewrite H0]; ring.
Qed.

Lemma big_sum_step (f : nat -> Qc) (lo n : nat) :
  big_sum f lo (S n) = f lo + big_sum f (S lo) n.
Proof. reflexivity. Qed.

Lemma big_sum_ext (f g : nat -> Qc) (lo n : nat) :
  (forall t : nat, (lo <= t < lo + n)%nat -> f t = g t) -> big_sum f lo n = big_sum g lo n.
Proof.
  revert lo. induction n as [|n IH]; intros lo H; [reflexivity|].
  rewrite !big_sum_step, (H lo) by lia. f_equal. apply IH. intros t Ht. apply H. lia.
Qed.

Lemma npv_from_nil (k : nat) (r : Qc) : npv_from [] k r = 0.
Proof. reflexivity. Qed.

Lemma npv_from_cons (c : Qc) (cf : list Qc) (k : nat) (r : Qc) :
  npv_from (c :: cf) k r = c / (1 + r) ^ k + npv_from cf (S k) r.
Proof.
  unfold npv_from. cbn [length]. rewrite big_sum_step, Nat.sub_diag. cbn [nth].
  f_equal. apply big_sum_ext. intros t Ht.
  replace (t - k)%nat with (S (t - S k)) by lia. reflexivity.
Qed.

Lemma npv_from_one (cf : list Qc) (r : Qc) : npv_from cf 1 r = npv_formula cf r.
Proof. reflexivity. Qed.

Lemma npv_terms_defined (r : Qc) (cf : list Qc) (k : nat) :
  r <> -1 ->
  comprehension (npv_term r) (enumerate cf (Z.of_nat k))
  = Ok ((fun t => nth (t - k) cf 0 / (1 + r) ^ t) <$> seq k (length cf)).
Proof.
  intros Hr. revert k. induction cf as [|c cf IH]; intros k; [reflexivity|].
  cbn [enumerate comprehension length seq fmap list_fmap npv_term].
  rewrite py_pow_nonneg by lia. cbn [bind].
  rewrite py_div_nonzero by (apply Qcpower_nonzero, one_plus_nonzero, Hr). cbn [bind].
  replace (Z.of_nat k + 1)%Z with (Z.of_nat (S k)) by lia.
  rewrite IH. cbn [bind]. rewrite Nat2Z.id, Nat.sub_diag. cbn [nth].
  do 2 f_equal. apply list_fmap_ext. intros i t Ht.
  apply lookup_seq in Ht as [-> Hi].
  replace (S k + i - k)%nat with (S i) by lia.
  replace (S k + i - S k)%nat with i by lia. reflexivity.
Qed.

Lemma calculate_npv_defined (cf : list Qc) (r : Qc) :
  r <> -1 -> calculate_npv cf r = Ok (npv_formula cf r).
Proof.
  intros Hr. unfold calculate_npv, npv_formula.
  change 1%Z with (Z.of_nat 1). rewrite npv_terms_defined by assumption. cbn [bind].
  rewrite big_sum_fmap. reflexivity.
Qed.



Lemma Qcpower_add (x : Qc) (n m : nat) : x ^ (n + m) = x ^ n * x ^ m.
Proof. induction n as [|n IH]; cbn; [ring|]. rewrite IH. ring. Qed.

Lemma Qcdiv_power_add (c x : Qc) (n m : nat) : c / x ^ (n + m) = c / x ^ n / x ^ m.
Proof. rewrite Qcpower_add. unfold Qcdiv. rewrite Qcinv_mult_distr. ring. Qed.

Lemma npv_from_app (a b : list Qc) (k : nat) (r : Qc) :
  npv_from (a ++ b) k r = npv_from a k r + npv_from b (k + length a) r.
Proof.
  revert k. induction a as [|c a IH]; intros k; cbn [app length].
  - rewrite npv_from_nil, Nat.add_0_r. ring.
  - rewrite !npv_from_cons, IH. replace (S k + length a)%nat with (k + S (length a))%nat by lia.
    ring.
Qed.

Lemma npv_from_shift (cf : list Qc) (k n : nat) (r : Qc) :
  npv_from cf (k + n) r = npv_from cf k r / (1 + r) ^ n.
Proof.
  revert k. induction cf as [|c cf IH]; intros k.
  - rewrite !npv_from_nil. unfold Qcdiv. ring.
  - rewrite !npv_from_cons. change (S (k + n)) with (S k + n)%nat.
    rewrite IH, Qcdiv_power_add. unfold Qcdiv. ring.
Qed.

Lemma npv_from_scale (cf : list Qc) (p : Qc) (k : nat) (r : Qc) :
  npv_from ((fun c => c * p) <$> cf) k r = p * npv_from cf k r.
Proof.
  revert k. induction cf as [|c cf IH]; intros k; cbn [fmap list_fmap].
  - rewrite !npv_from_nil. ring.
  - rewrite !npv_from_cons, IH. unfold Qcdiv. ring.
Qed.

Lemma npv_formula_app (a b : list Qc) (r : Qc) :
  npv_formula (a ++ b) r = npv_formula a r + npv_formula b r / (1 + r) ^ length a.
Proof. rewrite <- !npv_from_one, npv_from_app, npv_from_shift. reflexivity. Qed.

(** X2.  At a rate other than -1 the NPV of two series one after the other
    is the NPV of the first plus the NPV of the second discounted by the
    length of the first: appending a series delays it by the years before it. *)
Theorem calculate_npv_app (a b : list Qc) (r : Qc) :
  r <> -1 ->
  exists va vb : Qc,
    calculate_npv a r = Ok va
    /\ calculate_npv b r = Ok vb
    /\ calculate_npv (a ++ b) r = Ok (va + vb / (1 + r) ^ length a).
Proof.
  intros Hr. exists (npv_formula a r), (npv_formula b r).
  rewrite !calculate_npv_defined by assumption. rewrite npv_formula_app. auto.
Qed.

Lemma calculate_npv_app_witness :
  1 <> -1
  /\ calculate_npv [of_int 8] 1 = Ok (of_int 4)
  /\ calculate_npv [of_int 16; of_int 32] 1 = Ok (of_int 16)
  /\ calculate_npv ([of_int 8] ++ [of_int 16; of_int 32]) 1 = Ok (of_int 12).
Proof.
  split; [discriminate|].
  destruct (calculate_npv_app [of_int 8] [of_int 16; of_int 32] 1)
    as (va & vb & Ha & Hb & Hab); [discriminate|].
  assert (Hva : va = of_int 4).
  { rewrite calculate_npv_defined in Ha by discriminate. injection Ha as <-. qc_closed. }
  assert (Hvb : vb = of_int 16).
  { rewrite calculate_npv_defined in Hb by discriminate. injection Hb as <-. qc_closed. }
  rewrite Ha, Hb, Hab, Hva, Hvb. repeat split. f_equal. qc_closed.
Defined.

(** X3.  At a rate other than -1 the NPV of a series scaled item by item
    by [p], as risk adjustment does, is [p] times the NPV of the series. *)
Theorem calculate_npv_scale (cf : list Qc) (p r : Qc) :
  r <> -1 ->
  exists v : Qc,
    calculate_npv cf r = Ok v
    /\ calculate_npv ((fun c => c * p) <$> cf) r = Ok (p * v).
Proof.
  intros Hr. exists (npv_formula cf r).
  rewrite !calculate_npv_defined by assumption.
  rewrite <- !npv_from_one, npv_from_scale. auto.
Qed.

Lemma calculate_npv_scale_witness :
  1 <> -1
  /\ calculate_npv [of_int 16; of_int 32] 1 = Ok (of_int 16)
  /\ calculate_npv ((fun c => c * Q2Qc (1 # 4)) <$> [of_int 16; of_int 32]) 1 = Ok (of_int 4).
Proof.
  split; [discriminate|].
  destruct (calculate_npv_scale [of_int 16; of_int 32] (Q2Qc (1 # 4)) 1)
    as (v & Hv & Hs); [discriminate|].
  assert (Hv' : v = of_int 16).
  { rewrite calculate_npv_defined in Hv by discriminate. injection Hv as <-. qc_closed. }
  rewrite Hv, Hs, Hv'. repeat split. f_equal. qc_closed.
Defined.

Lemma npv_from_rate_zero (cf : list Qc) (k : nat) : npv_from cf k 0 = py_sum cf.
Proof.
  revert k. induction cf as [|c cf IH]; intros k; [reflexivity|].
  rewrite npv_from_cons, IH, py_sum_cons. f_equal.
  replace (1 + 0) with 1 by ring. rewrite Qcpower_1. unfold Qcdiv.
  replace (/ 1) with 1 by qc_closed. ring.
Qed.

Lemma Qcpower_ge_one (x : Qc) (n : nat) : 1 <= x -> 1 <= x ^ n.
Proof.
  intros Hx. induction n as [|n IH]; cbn; [apply Qcle_refl|].
  apply Qcle_trans with (1 * x ^ n); [rewrite Qcmult_1_l; exact IH|].
  apply Qcmult_le_compat_r; [exact Hx|].
  apply Qcle_trans with 1; [discriminate|exact IH].
Qed.

Lemma Qcdiv_le_self (c y : Qc) : 0 <= c -> 1 <= y -> 0 <= c / y /\ c / y <= c.
Proof.
  intros Hc Hy.
  assert (Hpos : 0 < y) by (apply Qclt_le_trans with 1; [reflexivity|exact Hy]).
  split; [apply Qcdiv_nonneg; assumption|].
  apply Qcmult_lt_0_le_reg_r with y; [exact Hpos|].
  unfold Qcdiv. rewrite <- Qcmult_assoc, Qcmult_inv_l, Qcmult_1_r
    by (intros ->; exact (Qclt_not_eq _ _ Hpos eq_refl)).
  rewrite <- (Qcmult_1_r c) at 1. apply Qcmult_le_mono_nonneg_l; assumption.
Qed.

Lemma npv_from_bounds (cf : list Qc) (k : nat) (r : Qc) :
  0 <= r -> Forall (fun c => 0 <= c) cf ->
  0 <= npv_from cf k r /\ npv_from cf k r <= py_sum cf.
Proof.
  intros Hr Hcf. revert k. induction Hcf as [|c cf Hc _ IH]; intros k.
  - rewrite npv_from_nil. split; apply Qcle_refl.
  - rewrite npv_from_cons, py_sum_cons.
    assert (Hx : 1 <= (1 + r) ^ k).
    { apply Qcpower_ge_one. rewrite <- (Qcplus_0_r 1) at 1.
      apply Qcplus_le_mono_l, Hr. }
    destruct (Qcdiv_le_self c _ Hc Hx) as [H0 H1]. destruct (IH (S k)) as [H2 H3].
    split; [apply Qcplus_nonneg_nonneg; assumption|apply Qcplus_le_compat; assumption].
Qed.

(** X4.  At rate 0 the NPV of any series is its plain sum; at a rate of 0
    or more the NPV of a series without negative items lies between 0 and
    that sum: discounting never adds value. *)
Theorem calculate_npv_discounts (cf : list Qc) (r : Qc) :
  calculate_npv cf 0 = Ok (py_sum cf)
  /\ (0 <= r -> Forall (fun c => 0 <= c) cf ->
      exists v : Qc, calculate_npv cf r = Ok v /\ 0 <= v /\ v <= py_sum cf).
Proof.
  split.
  - rewrite calculate_npv_defined by discriminate.
    rewrite <- npv_from_one, npv_from_rate_zero. reflexivity.
  - intros Hr Hcf. exists (npv_formula cf r). split.
    + apply calculate_npv_defined. intros ->. apply (Qcle_not_lt _ _ Hr). reflexivity.
    + rewrite <- npv_from_one. apply npv_from_bounds; assumption.
Qed.

Lemma calculate_npv_discounts_witness :
  0 <= Q2Qc (1 # 2) /\ Forall (fun c => 0 <= c) [of_int 3; of_int 9]
  /\ calculate_npv [of_int 3; of_int (-9)] 0 = Ok (of_int (-6))
  /\ exists v : Qc,
       calculate_npv [of_int 3; of_int 9] (Q2Qc (1 # 2)) = Ok v
       /\ v = of_int 6 /\ 0 <= v /\ v <= of_int 12.
Proof.
  assert (Hnn : Forall (fun c => 0 <= c) [of_int 3; of_int 9])
    by (repeat constructor; discriminate).
  split; [discriminate|]. split; [exact Hnn|].
  destruct (calculate_npv_discounts [of_int 3; of_int (-9)] 0) as [Hzero _].
  destruct (calculate_npv_discounts [of_int 3; of_int 9] (Q2Qc (1 # 2))) as [_ Hpos].
  destruct (Hpos ltac:(discriminate) Hnn) as (v & Hv & H0 & H1).
  split; [rewrite Hzero; f_equal; qc_closed|].
  exists v. split; [exact Hv|].
  assert (Hval : v = of_int 6).
  { rewrite calculate_npv_defined in Hv by discriminate. apply Ok_inj in Hv as <-. qc_closed. }
  split; [exact Hval|]. split; [exact H0|].
  replace (of_int 12) with (py_sum [of_int 3; of_int 9]) by qc_closed. exact H1.
Defined.

(** ** calculate_roi: sign and the guard *)

(** X5.  [calculate_roi] never raises.  It returns the NaN sentinel for
    every [total_investment <= 0], negative ones included; for
    [total_investment > 0] it returns a number that is 0 or more exactly
    when [npv >= total_investment], and -100 when [npv = 0]. *)
Theorem calculate_roi_sign (npv total : Qc) :
  (total <= 0 -> calculate_roi npv total = Ok NaN)
  /\ (0 < total ->
      exists x : Qc,
        calculate_roi npv total = Ok (Num x)
        /\ (0 <= x <-> total <= npv)
        /\ (npv = 0 -> x = of_int (-100))).
Proof.
  split.
  - intros Hle. unfold calculate_roi.
    destruct (decide (0 < total)) as [Hpos|_]; [|reflexivity].
    exfalso. exact (Qcle_not_lt _ _ Hle Hpos).
  - intros Hpos.
    assert (Hne : total <> 0) by (intros ->; exact (Qclt_not_eq _ _ Hpos eq_refl)).
    exists ((npv - total) / total * of_int 100). split; [|split].
    + unfold calculate_roi. destruct (decide (0 < total)); [|contradiction].
      rewrite py_div_nonzero by exact Hne. reflexivity.
    + assert (Hc : 0 < / total * of_int 100).
      { apply Qcmult_pos_pos; [apply Qcinv_pos, Hpos|reflexivity]. }
      replace ((npv - total) / total * of_int 100)
        with ((npv - total) * (/ total * of_int 100)) by (unfold Qcdiv; ring).
      rewrite <- (Qcmult_0_l (/ total * of_int 100)) at 1.
      rewrite <- (Qcmult_le_mono_pos_r 0 (npv - total) _ Hc).
      rewrite (Qcle_minus_iff total npv). reflexivity.
    + intros ->. replace ((0 - total) / total) with (- (total / total)) by (unfold Qcdiv; ring).
      unfold Qcdiv. rewrite Qcmult_inv_r by exact Hne. qc_closed.
Qed.

Lemma calculate_roi_sign_witness :
  of_int (-5) <= 0 /\ 0 < of_int 200
  /\ calculate_roi (of_int 9) (of_int (-5)) = Ok NaN
  /\ calculate_roi 0 (of_int 200) = Ok (Num (of_int (-100))).
Proof.
  split; [discriminate|]. split; [reflexivity|].
  destruct (calculate_roi_sign (of_int 9) (of_int (-5))) as [Hnan _].
  destruct (calculate_roi_sign 0 (of_int 200)) as [_ Hnum].
  split; [apply Hnan; discriminate|].
  destruct Hnum as (x & Hx & _ & Hloss); [reflexivity|].
  rewrite Hx, (Hloss eq_refl). reflexivity.
Defined.

(** ** calculate_revenue_curve and simulate_pipeline_cash_flows: edges *)

(** X6.  A negative [ramp_years] makes the simulation raise ValueError (from
    [np.linspace]); otherwise it returns, and a non-positive [delay_years],
    [peak_years] or [decline_years] contributes no item instead of raising:
    the length is [max 0 delay + ramp + max 0 peak + max 0 decline]. *)
Theorem simulate_pipeline_cash_flows_edges (P price m : Qc) (delay r k d : Z) (rho : Qc) :
  ((r < 0)%Z ->
   calculate_revenue_curve P price m r k d rho = Raise ValueError
   /\ simulate_pipeline_cash_flows P price m delay r k d rho = Raise ValueError)
  /\ ((0 <= r)%Z ->
      exists l : list Qc,
        simulate_pipeline_cash_flows P price m delay r k d rho = Ok l
        /\ Z.of_nat (length l) = (Z.max 0 delay + r + Z.max 0 k + Z.max 0 d)%Z).
Proof.
  split.
  - intros Hr. split; [apply calculate_revenue_curve_raises, Hr|].
    unfold simulate_pipeline_cash_flows.
    rewrite calculate_revenue_curve_raises by exact Hr. reflexivity.
  - intros Hr. unfold simulate_pipeline_cash_flows.
    rewrite calculate_revenue_curve_total by exact Hr. cbn [bind]. eexists. split; [reflexivity|].
    rewrite range_const, !length_app, length_replicate, !length_fmap,
      length_linspace_items, length_range2.
    unfold peak_curve, list_times. rewrite length_replicate. lia.
Qed.

Lemma simulate_pipeline_cash_flows_edges_witness :
  (-1 < 0)%Z /\ (0 <= 2)%Z
  /\ simulate_pipeline_cash_flows 1 1 1 3 (-1) 4 5 0 = Raise ValueError
  /\ exists l : list Qc,
       simulate_pipeline_cash_flows 1 1 1 (-3) 2 (-4) 0 0 = Ok l /\ length l = 2%nat.
Proof.
  split; [reflexivity|]. split; [discriminate|].
  destruct (simulate_pipeline_cash_flows_edges 1 1 1 3 (-1) 4 5 0) as [Hraise _].
  destruct (simulate_pipeline_cash_flows_edges 1 1 1 (-3) 2 (-4) 0 0) as [_ Hok].
  split; [apply Hraise; reflexivity|].
  destruct Hok as (l & Hl & Hlen); [discriminate|].
  exists l. split; [exact Hl|]. lia.
Defined.

(** ** The ramp: np.linspace between its ends *)

Lemma linspace_step_nonzero (start stop : Qc) (div : Z) :
  start <> stop -> (0 < div)%Z -> (stop - start) / of_int div <> 0.
Proof.
  intros Hne Hdiv Hstep. apply Hne.
  assert (Hd : of_int div <> 0) by (apply of_int_nonzero; lia).
  pose proof (Qcmult_div_r (stop - start) (of_int div) Hd) as H.
  rewrite Hstep, Qcmult_0_r in H.
  transitivity (stop - (stop - start)); [ring|]. rewrite <- H. ring.
Qed.

Lemma linspace_items_inner (start stop : Qc) (num : Z) (i : nat) :
  (1 < num)%Z -> start <> stop -> (Z.of_nat i < num - 1)%Z ->
  linspace_items start stop num !! i
  = Some (of_int (Z.of_nat i) * ((stop - start) / of_int (num - 1)) + start).
Proof.
  intros Hnum Hne Hi. unfold linspace_items.
  destruct (decide (1 < num)%Z) as [_|Hn]; [|lia].
  rewrite list_lookup_insert_ne by lia.
  destruct (decide (0 < num - 1)%Z) as [Hdiv|Hn]; [|lia].
  destruct (decide ((stop - start) / of_int (num - 1) = 0)) as [Hstep|_].
  { exfalso. exact (linspace_step_nonzero start stop (num - 1) Hne Hdiv Hstep). }
  rewrite !list_lookup_fmap, lookup_seqZ_lt by lia. reflexivity.
Qed.

(** X7.  For [ramp_years >= 1] the ramp has [ramp_years] items and starts at
    [0.1 × peak_revenue]; for [ramp_years >= 2] it ends at [peak_revenue] and
    item [i] before the last is
    [peak_revenue × (i × (0.9 / (ramp_years − 1)) + 0.1)]. *)
Theorem ramp_curve_items (peak_revenue : Qc) (r : Z) :
  (1 <= r)%Z ->
  exists ramp : list Qc,
    ramp_curve peak_revenue r = Ok ramp
    /\ length ramp = Z.to_nat r
    /\ ramp !! 0%nat = Some (peak_revenue * Q2Qc (1 # 10))
    /\ ((2 <= r)%Z ->
        ramp !! Z.to_nat (r - 1) = Some peak_revenue
        /\ forall i : nat,
             (Z.of_nat i < r - 1)%Z ->
             ramp !! i
             = Some (peak_revenue
                     * (of_int (Z.of_nat i) * (Q2Qc (9 # 10) / of_int (r - 1))
                        + Q2Qc (1 # 10)))).
Proof.
  intros Hr. eexists. split; [apply ramp_curve_total; lia|].
  split; [rewrite length_fmap; apply length_linspace_items|]. split.
  - destruct (decide (r = 1%Z)) as [->|Hr1].
    + pose proof (linspace_one (Q2Qc (1 # 10)) 1) as H1.
      rewrite linspace_total in H1 by lia. rewrite (Ok_inj _ _ H1). reflexivity.
    + rewrite list_lookup_fmap, linspace_items_first by lia. reflexivity.
  - intros Hr2. split.
    + rewrite list_lookup_fmap, linspace_items_last by lia. cbn. f_equal. ring.
    + intros i Hi. rewrite list_lookup_fmap, linspace_items_inner by (lia || discriminate).
      replace (Q2Qc (9 # 10)) with (1 - Q2Qc (1 # 10)) by qc_closed. reflexivity.
Qed.

Lemma ramp_curve_items_witness :
  (1 <= 4)%Z
  /\ ramp_curve (of_int 100) 4 = Ok [of_int 10; of_int 40; of_int 70; of_int 100].
Proof.
  split; [discriminate|].
  destruct (ramp_curve_items (of_int 100) 4) as (ramp & Hramp & Hlen & H0 & Hrest);
    [discriminate|].
  destruct Hrest as [H3 Hin]; [discriminate|].
  pose proof (Hin 1%nat ltac:(cbn; lia)) as H1.
  pose proof (Hin 2%nat ltac:(cbn; lia)) as H2.
  rewrite Hramp. f_equal.
  destruct ramp as [|a [|b [|c [|e [|? ?]]]]]; try discriminate Hlen.
  cbn in H0, H1, H2, H3. injection H0 as ->. injection H1 as ->.
  injection H2 as ->. injection H3 as ->.
  qc_list_closed.
Defined.

Lemma linspace_items_le_stop (start stop : Qc) (num : Z) :
  start <= stop -> Forall (fun v => v <= stop) (linspace_items start stop num).
Proof.
  intros Hle.
  assert (Hdelta : 0 <= stop - start).
  { unfold Qcminus. apply Qcle_minus_iff in Hle. exact Hle. }
  assert (Hshift : forall a : Qc, a <= stop - start -> a + start <= stop).
  { intros a Ha. apply Qcle_trans with (stop - start + start).
    - exact (proj1 (Qcplus_le_mono_r a (stop - start) start) Ha).
    - replace (stop - start + start) with stop by ring. apply Qcle_refl. }
  assert (Hscaled : Forall (fun v => v <= stop - start)
            (if decide (0 < num - 1)%Z then
               if decide ((stop - start) / of_int (num - 1) = 0)
               then (fun v => v * (stop - start))
                      <$> ((fun v => v / of_int (num - 1)) <$> (of_int <$> seqZ 0 num))
               else (fun v => v * ((stop - start) / of_int (num - 1)))
                      <$> (of_int <$> seqZ 0 num)
             else (fun v => v * (stop - start)) <$> (of_int <$> seqZ 0 num))).
  { destruct (decide (0 < num - 1)%Z) as [Hdiv|Hdiv].
    - assert (Hpos : 0 < of_int (num - 1)).
      { rewrite <- Z2Qc_inj_0. exact (proj1 (Z2Qc_inj_lt 0 (num - 1)) Hdiv). }
      assert (Hne : of_int (num - 1) <> 0).
      { intros H0. rewrite H0 in Hpos. exact (Qclt_not_eq _ _ Hpos eq_refl). }
      assert (Hi : forall i : Z, (0 <= i < 0 + num)%Z -> of_int i <= of_int (num - 1)).
      { intros i Hi. apply (proj1 (Z2Qc_inj_le i (num - 1))). lia. }
      destruct (decide ((stop - start) / of_int (num - 1) = 0)).
      + rewrite <- !list_fmap_compose. apply Forall_fmap, Forall_seqZ. intros i Hrange. cbn.
        rewrite <- (Qcmult_1_l (stop - start)) at 2.
        apply Qcmult_le_compat_r; [|exact Hdelta].
        apply Qcmult_lt_0_le_reg_r with (of_int (num - 1)); [exact Hpos|].
        unfold Qcdiv. rewrite <- Qcmult_assoc, Qcmult_inv_l, Qcmult_1_r, Qcmult_1_l by exact Hne.
        apply Hi, Hrange.
      + rewrite <- list_fmap_compose. apply Forall_fmap, Forall_seqZ. intros i Hrange. cbn.
        apply Qcle_trans with (of_int (num - 1) * ((stop - start) / of_int (num - 1))).
        * apply Qcmult_le_compat_r; [apply Hi, Hrange|apply Qcdiv_nonneg; assumption].
        * rewrite Qcmult_div_r by exact Hne. apply Qcle_refl.
    - rewrite <- list_fmap_compose. apply Forall_fmap, Forall_seqZ. intros i Hrange. cbn.
      assert (i = 0%Z) as -> by lia.
      unfold of_int. rewrite Z2Qc_inj_0, Qcmult_0_l. exact Hdelta. }
  unfold linspace_items.
  assert (Hitems : forall l : list Qc,
             Forall (fun v => v <= stop - start) l ->
             Forall (fun v => v <= stop) ((fun v => v + start) <$> l)).
  { intros l Hl. apply Forall_fmap. eapply Forall_impl; [|exact Hl].
    intros v Hv. cbn. apply Hshift, Hv. }
  destruct (decide (1 < num)%Z); [apply Forall_insert; [|apply Qcle_refl]|];
    apply Hitems, Hscaled.
Qed.

(** ** The revenue curve stays between 0 and the peak *)

Lemma Qcpower_le_one (q : Qc) (n : nat) : 0 <= q -> q <= 1 -> q ^ n <= 1.
Proof.
  intros H0 H1. induction n as [|n IH]; cbn; [apply Qcle_refl|].
  apply Qcle_trans with (1 * q ^ n); [|rewrite Qcmult_1_l; exact IH].
  apply Qcmult_le_compat_r; [exact H1|apply Qcpower_pos, H0].
Qed.

Lemma one_minus_range (rho : Qc) : 0 <= rho -> rho <= 1 -> 0 <= 1 - rho /\ 1 - rho <= 1.
Proof.
  intros H0 H1. split.
  - unfold Qcminus. apply Qcle_minus_iff in H1. exact H1.
  - apply Qcle_trans with (1 - rho + rho).
    + rewrite <- (Qcplus_0_r (1 - rho)) at 1. apply Qcplus_le_mono_l, H0.
    + replace (1 - rho + rho) with 1 by ring. apply Qcle_refl.
Qed.

Lemma scale_within (pr v : Qc) : 0 <= pr -> 0 <= v -> v <= 1 -> 0 <= pr * v /\ pr * v <= pr.
Proof.
  intros Hpr H0 H1. split; [apply Qcmult_nonneg_nonneg; assumption|].
  rewrite <- (Qcmult_1_r pr) at 2. apply Qcmult_le_mono_nonneg_l; assumption.
Qed.

(** X8.  With non-negative population, price and penetration, a decline rate
    in [0,1] and [ramp_years >= 0], every value of the revenue curve lies
    between 0 and [peak_revenue]: revenue never exceeds the peak. *)
Theorem calculate_revenue_curve_bounds (P price m : Qc) (r k d : Z) (rho : Qc) :
  0 <= P -> 0 <= price -> 0 <= m -> 0 <= rho -> rho <= 1 -> (0 <= r)%Z ->
  exists curve : list Qc,
    calculate_revenue_curve P price m r k d rho = Ok curve
    /\ Forall (fun v => 0 <= v /\ v <= P * price * (m / of_int 100)) curve.
Proof.
  intros HP Hprice Hm Hrho0 Hrho1 Hr.
  eexists. split; [apply calculate_revenue_curve_total, Hr|].
  set (pr := P * price * (m / of_int 100)).
  assert (Hpr : 0 <= pr).
  { apply Qcmult_nonneg_nonneg; [apply Qcmult_nonneg_nonneg; assumption|].
    apply Qcdiv_nonneg; [assumption|reflexivity]. }
  apply Forall_app. split; [|apply Forall_app; split].
  - apply Forall_fmap.
    pose proof (linspace_items_nonneg (Q2Qc (1 # 10)) 1 r ltac:(discriminate) ltac:(discriminate))
      as Hlow.
    pose proof (linspace_items_le_stop (Q2Qc (1 # 10)) 1 r ltac:(discriminate)) as Hhigh.
    apply Forall_forall. intros p Hp. cbn.
    rewrite Forall_forall in Hlow, Hhigh.
    apply scale_within; [exact Hpr|apply Hlow, Hp|apply Hhigh, Hp].
  - unfold peak_curve, list_times. apply Forall_replicate.
    split; [exact Hpr|apply Qcle_refl].
  - destruct (one_minus_range rho Hrho0 Hrho1) as [Hq0 Hq1].
    apply Forall_fmap, Forall_forall. intros year _. cbn.
    apply scale_within; [exact Hpr|apply Qcpower_pos, Hq0|apply Qcpower_le_one; assumption].
Qed.

Lemma calculate_revenue_curve_bounds_witness :
  0 <= of_int 10 /\ 0 <= of_int 20 /\ 0 <= of_int 50
  /\ 0 <= Q2Qc (1 # 2) /\ Q2Qc (1 # 2) <= 1 /\ (0 <= 2)%Z
  /\ exists curve : list Qc,
       calculate_revenue_curve (of_int 10) (of_int 20) (of_int 50) 2 1 1 (Q2Qc (1 # 2))
       = Ok curve
       /\ Forall (fun v => 0 <= v /\ v <= of_int 100) curve.
Proof.
  repeat (split; [discriminate|]).
  destruct (calculate_revenue_curve_bounds
              (of_int 10) (of_int 20) (of_int 50) 2 1 1 (Q2Qc (1 # 2)))
    as (curve & Hcurve & Hb); try discriminate.
  exists curve. split; [exact Hcurve|].
  replace (of_int 100) with (of_int 10 * of_int 20 * (of_int 50 / of_int 100)) by qc_closed.
  exact Hb.
Defined.

(** X9.  With [peak_revenue >= 0] and a decline rate in [0,1] the decline
    phase never rises: each year's value is at most the year before's, the
    first at most [peak_revenue].  With [peak_revenue > 0] and a rate below 1
    every value stays above 0. *)
Theorem decline_curve_monotone (peak_revenue : Qc) (d : Z) (rho : Qc) :
  0 <= peak_revenue -> 0 <= rho -> rho <= 1 ->
  exists l : list Qc,
    decline_curve peak_revenue d rho = Ok l
    /\ (forall v : Qc, l !! 0%nat = Some v -> v <= peak_revenue)
    /\ (forall (i : nat) (v w : Qc), l !! i = Some v -> l !! S i = Some w -> w <= v)
    /\ (0 < peak_revenue -> rho < 1 -> Forall (fun v => 0 < v) l).
Proof.
  intros Hpr Hrho0 Hrho1. destruct (one_minus_range rho Hrho0 Hrho1) as [Hq0 Hq1].
  eexists. split; [apply decline_curve_total|]. split; [|split].
  - intros v Hv. apply list_lookup_fmap_Some in Hv as (year & -> & _).
    apply scale_within; [exact Hpr|apply Qcpower_pos, Hq0|apply Qcpower_le_one; assumption].
  - intros i v w Hv Hw.
    apply list_lookup_fmap_Some in Hv as (y1 & -> & Hy1).
    apply list_lookup_fmap_Some in Hw as (y2 & -> & Hy2).
    unfold range2 in Hy1, Hy2.
    apply lookup_seqZ in Hy1 as [-> Hi1]. apply lookup_seqZ in Hy2 as [-> Hi2].
    replace (Z.to_nat (1 + Z.of_nat (S i))) with (S (Z.to_nat (1 + Z.of_nat i))) by lia.
    apply Qcmult_le_mono_nonneg_l; [exact Hpr|]. cbn [Qcpower].
    rewrite <- (Qcmult_1_l ((1 - rho) ^ Z.to_nat (1 + Z.of_nat i))) at 2.
    apply Qcmult_le_compat_r; [exact Hq1|apply Qcpower_pos, Hq0].
  - intros Hpos Hlt. apply Forall_fmap, Forall_forall. intros year _. cbn.
    apply Qcmult_pos_pos; [exact Hpos|].
    assert (Hq : 0 < 1 - rho).
    { unfold Qcminus. apply Qclt_minus_iff in Hlt. exact Hlt. }
    generalize (Z.to_nat year). intros n. induction n as [|n IH]; cbn; [reflexivity|].
    apply Qcmult_pos_pos; assumption.
Qed.

Lemma decline_curve_monotone_witness :
  0 <= of_int 8 /\ 0 <= Q2Qc (1 # 2) /\ Q2Qc (1 # 2) <= 1
  /\ exists l : list Qc,
       decline_curve (of_int 8) 3 (Q2Qc (1 # 2)) = Ok l
       /\ Forall (fun v => 0 < v) l.
Proof.
  repeat (split; [discriminate|]).
  destruct (decline_curve_monotone (of_int 8) 3 (Q2Qc (1 # 2)))
    as (l & Hl & _ & _ & Hpos); try discriminate.
  exists l. split; [exact Hl|]. apply Hpos; reflexivity.
Defined.

(** ** The delay years as investment *)

Lemma py_sum_replicate (x : Qc) (n : nat) : py_sum (replicate n x) = of_int (Z.of_nat n) * x.
Proof.
  induction n as [|n IH].
  - change (Z.of_nat 0) with 0%Z. unfold of_int. rewrite Z2Qc_inj_0, Qcmult_0_l. reflexivity.
  - cbn [replicate]. rewrite py_sum_cons, IH. unfold of_int.
    rewrite Nat2Z.inj_succ, <- Z.add_1_r, Z2Qc_inj_add, Z2Qc_inj_1. ring.
Qed.

Lemma filter_negative_keep (x : Qc) (n : nat) (l : list Qc) :
  x < 0 -> Forall (fun v => 0 <= v) l ->
  filter (fun cf => cf < 0) (replicate n x ++ l) = replicate n x.
Proof.
  intros Hx Hl. rewrite list.filter_app.
  replace (filter (fun cf => cf < 0) l) with (@nil Qc).
  - rewrite app_nil_r. induction n as [|n IH]; [reflexivity|].
    cbn [replicate]. rewrite filter_cons_True by exact Hx. f_equal. exact IH.
  - symmetry. induction Hl as [|v l Hv _ IH]; [reflexivity|].
    rewrite filter_cons_False; [exact IH|]. apply Qcle_not_lt, Hv.
Qed.

(** X10.  With inputs that give a non-negative revenue curve, the amount
    [main] would add to [total_investment] for a series simulated with
    [delay_years >= 0] is 500,000,000 per delay year: only the delay years
    count as investment. *)
Theorem delay_years_investment (P price m : Qc) (delay r k d : Z) (rho : Qc) :
  0 <= P -> 0 <= price -> 0 <= m -> rho <= 1 -> (0 <= r)%Z -> (0 <= delay)%Z ->
  exists series : list Qc,
    simulate_pipeline_cash_flows P price m delay r k d rho = Ok series
    /\ investment_of series = of_int 500000000 * of_int delay.
Proof.
  intros HP Hprice Hm Hrho Hr Hdelay.
  destruct (revenue_curve_nonneg P price m r k d rho HP Hprice Hm Hrho Hr)
    as (curve & Hcurve & Hnonneg).
  exists (replicate (Z.to_nat delay) DELAY_YEAR_CASH_FLOW ++ curve). split.
  - unfold simulate_pipeline_cash_flows. rewrite range_const, Hcurve. reflexivity.
  - unfold investment_of.
    rewrite filter_negative_keep by (reflexivity || exact Hnonneg).
    rewrite py_sum_replicate, Z2Nat.id by exact Hdelay.
    replace (of_int delay * DELAY_YEAR_CASH_FLOW)
      with (- (of_int 500000000 * of_int delay)).
    + rewrite Qcabs_opp. apply Qcabs_pos.
      apply Qcmult_nonneg_nonneg; [discriminate|apply of_int_nonneg, Hdelay].
    + replace DELAY_YEAR_CASH_FLOW with (- of_int 500000000) by qc_closed. ring.
Qed.

Lemma delay_years_investment_witness :
  0 <= of_int 1 /\ 0 <= of_int 1 /\ 0 <= of_int 100 /\ Q2Qc (1 # 2) <= 1
  /\ (0 <= 1)%Z /\ (0 <= 3)%Z
  /\ exists series : list Qc,
       simulate_pipeline_cash_flows (of_int 1) (of_int 1) (of_int 100) 3 1 1 2 (Q2Qc (1 # 2))
       = Ok series
       /\ investment_of series = of_int 1500000000.
Proof.
  repeat (split; [discriminate|]).
  destruct (delay_years_investment (of_int 1) (of_int 1) (of_int 100) 3 1 1 2 (Q2Qc (1 # 2)))
    as (series & Hseries & Hinv); try discriminate.
  exists series. split; [exact Hseries|]. rewrite Hinv. qc_closed.
Defined.

(** ** estimate_funding_requirements over any cost table *)

(** X11.  Over any cost table (a dictionary, so with distinct keys)
    [estimate_funding_requirements] never raises KeyError: it returns the
    table itself as breakdown and the sum of its values as total, the same
    for any two cash-flow series. *)
Theorem estimate_funding_requirements_any_table
    (pipeline pipeline' : list Qc) (phase_costs : dict) :
  NoDup (dict_keys phase_costs) ->
  estimate_funding_requirements pipeline phase_costs
  = Ok (Funding (py_sum (dict_values phase_costs)) phase_costs)
  /\ estimate_funding_requirements pipeline phase_costs
     = estimate_funding_requirements pipeline' phase_costs.
Proof.
  intros Hnodup. rewrite !funding_of_any_table by exact Hnodup. split; reflexivity.
Qed.

Lemma estimate_funding_requirements_any_table_witness :
  NoDup (dict_keys [("Seed"%string, of_int 3); ("Series A"%string, of_int 4)])
  /\ estimate_funding_requirements [of_int (-9)]
       [("Seed"%string, of_int 3); ("Series A"%string, of_int 4)]
     = Ok (Funding (of_int 7) [("Seed"%string, of_int 3); ("Series A"%string, of_int 4)]).
Proof.
  assert (Hnodup : NoDup (dict_keys [("Seed"%string, of_int 3); ("Series A"%string, of_int 4)])).
  { cbn. repeat constructor; rewrite ?elem_of_cons, ?elem_of_nil; intuition discriminate. }
  split; [exact Hnodup|].
  destruct (estimate_funding_requirements_any_table [of_int (-9)] []
              [("Seed"%string, of_int 3); ("Series A"%string, of_int 4)] Hnodup) as [H _].
  rewrite H. do 2 f_equal. qc_closed.
Defined.

(** ** main: a phase that is not in the table *)

Lemma dict_get_missing (d : dict) (k : string) :
  k ∉ dict_keys d -> dict_get d k = Raise KeyError.
Proof.
  induction d as [|[k' v] d IH]; intros Hk; [reflexivity|].
  cbn in *. apply not_elem_of_cons in Hk as [Hne Hk].
  destruct (decide (k' = k)) as [->|_]; [contradiction|]. apply IH, Hk.
Qed.

Lemma for_each_app {S A : Type} (body : S -> A -> res S) (s : S) (l1 l2 : list A) :
  for_each body s (l1 ++ l2) = (let! s' := for_each body s l1 in for_each body s' l2).
Proof.
  revert s. induction l1 as [|x l1 IH]; intros s; [reflexivity|].
  cbn [app for_each]. destruct (body s x) as [s'|e]; [apply IH|reflexivity].
Qed.

(** X12.  When the assets before it are in the widgets' ranges, an asset
    whose phase is not a key of its probability table makes the loop, and
    so [main], raise KeyError, whatever assets follow. *)
Theorem main_unknown_phase (before after : list asset) (a : asset) :
  Forall valid_asset before ->
  phase a ∉ dict_keys (probabilities_of a) ->
  run_loop (before ++ a :: after) = Raise KeyError
  /\ main (before ++ a :: after) = Raise KeyError.
Proof.
  intros Hvalid Hphase.
  assert (Hloop : run_loop (before ++ a :: after) = Raise KeyError).
  { destruct (valid_assets_series before Hvalid) as (series & Hseries & _).
    destruct (for_each_loop_body before series initial_frame Hseries) as (f & Hf & _).
    unfold run_loop. rewrite for_each_app, Hf. cbn [bind for_each].
    unfold loop_body. rewrite dict_get_missing by exact Hphase. reflexivity. }
  split; [exact Hloop|]. unfold main. rewrite Hloop. reflexivity.
Qed.

Lemma main_unknown_phase_witness :
  Forall valid_asset sample_portfolio
  /\ main (sample_portfolio
           ++ Asset false "Phase 4" 1000 50 (of_int 100000) 6 7 8 (Q2Qc (1 # 10))
           :: sample_portfolio)
     = Raise KeyError.
Proof.
  split; [exact sample_portfolio_valid|].
  apply (main_unknown_phase sample_portfolio sample_portfolio
           (Asset false "Phase 4" 1000 50 (of_int 100000) 6 7 8 (Q2Qc (1 # 10))));
    [exact sample_portfolio_valid|].
  cbn. rewrite !not_elem_of_cons. repeat split; try discriminate. apply not_elem_of_nil.
Defined.

(** ** main: the portfolio NPV asset by asset *)

Lemma npv_from_concat (series : list (list Qc * Qc)) (offset : nat) (r : Qc) :
  npv_from (concat (risk_adjusted <$> series)) (1 + offset) r = staggered_npv series offset r.
Proof.
  revert offset. induction series as [|s series IH]; intros offset; [reflexivity|].
  cbn [fmap list_fmap concat staggered_npv]. rewrite npv_from_app.
  replace (length (risk_adjusted s)) with (length (fst s))
    by (unfold risk_adjusted; rewrite length_fmap; reflexivity).
  replace (npv_from (risk_adjusted s) (1 + offset) r)
    with (snd s * (npv_formula (fst s) r / (1 + r) ^ offset))
    by (unfold risk_adjusted; rewrite npv_from_scale, npv_from_shift, npv_from_one; reflexivity).
  replace (1 + offset + length (fst s))%nat with (1 + (offset + length (fst s)))%nat by lia.
  rewrite IH. unfold Qcdiv. ring.
Qed.

(** X13.  For a portfolio in the widgets' ranges the NPV [main] reports is
    the sum, over the assets in order, of the asset's probability times the
    NPV of its raw series at rate 0.15, divided by 1.15 to the number of
    years of all the assets before it. *)
Theorem main_npv_by_asset (assets : list asset) :
  Forall valid_asset assets ->
  exists (series : list (list Qc * Qc)) (out : results),
    Forall2 series_of assets series
    /\ main assets = Ok out
    /\ npv_pipeline out = staggered_npv series 0 DEFAULT_DISCOUNT_RATE.
Proof.
  intros Hvalid.
  destruct (valid_assets_series assets Hvalid) as (series & Hseries & _).
  destruct (for_each_loop_body assets series initial_frame Hseries) as (f & Hf & Hpipe & _).
  destruct (main_total assets f Hf) as (r & _ & Hmain).
  exists series. eexists. split; [exact Hseries|]. split; [exact Hmain|].
  cbn [npv_pipeline]. rewrite Hpipe. cbn [initial_frame pipeline_cash_flows app].
  rewrite <- npv_from_one. apply (npv_from_concat series 0).
Qed.

Lemma main_npv_by_asset_witness :
  Forall valid_asset sample_portfolio
  /\ exists (raw1 raw2 : list Qc) (out : results),
       asset_cash_flows (Asset false "Phase 1" 1000 50 (of_int 100000) 6 7 8 (Q2Qc (1 # 10)))
       = Ok raw1
       /\ asset_cash_flows (Asset true "Phase 3" 200 30 (of_int 50000) 1 1 1 (Q2Qc (1 # 2)))
          = Ok raw2
       /\ main sample_portfolio = Ok out
       /\ npv_pipeline out
          = Q2Qc (6 # 10) * npv_formula raw1 DEFAULT_DISCOUNT_RATE
              / (1 + DEFAULT_DISCOUNT_RATE) ^ 0
            + (Q2Qc (8 # 10) * npv_formula raw2 DEFAULT_DISCOUNT_RATE
                 / (1 + DEFAULT_DISCOUNT_RATE) ^ (0 + length raw1)
               + 0).
Proof.
  split; [exact sample_portfolio_valid|].
  destruct (main_npv_by_asset sample_portfolio sample_portfolio_valid)
    as (series & out & Hseries & Hmain & Hnpv).
  unfold sample_portfolio in Hseries.
  apply Forall2_cons_inv_l in Hseries as ([raw1 p1] & series1 & [Hr1 Hp1] & Hseries & ->).
  apply Forall2_cons_inv_l in Hseries as ([raw2 p2] & series2 & [Hr2 Hp2] & Hseries & ->).
  apply Forall2_nil_inv_l in Hseries as ->.
  cbn in Hp1, Hp2. injection Hp1 as <-. injection Hp2 as <-.
  exists raw1, raw2, out. repeat split; assumption.
Defined.

(** ** main on portfolios in the widgets' ranges *)

Lemma valid_asset_probability_range (a : asset) :
  valid_asset a ->
  exists p : Qc, dict_get (probabilities_of a) (phase a) = Ok p /\ 0 < p /\ p <= 1.
Proof.
  intros [Hphase _ _ _ _ _ _ _]. unfold probabilities_of in *.
  destruct (rare_disease a); cbn in Hphase;
    repeat (apply elem_of_cons in Hphase as [->|Hphase];
            [eexists; split; [reflexivity|split; [reflexivity|discriminate]]|]);
    inversion Hphase.
Qed.

Lemma valid_asset_length (a : asset) (raw : list Qc) :
  valid_asset a -> asset_cash_flows a = Ok raw ->
  Z.of_nat (length raw) = (ramp_years a + peak_years a + decline_years a)%Z.
Proof.
  intros [_ _ _ _ Hramp Hpeak Hdecline _] Hraw.
  unfold asset_cash_flows in Hraw.
  rewrite simulate_no_delay, calculate_revenue_curve_total in Hraw by lia.
  apply Ok_inj in Hraw as <-.
  rewrite !length_app, !length_fmap, length_linspace_items, length_range2.
  unfold peak_curve, list_times. rewrite length_replicate. lia.
Qed.

(** What holds of the pair of an asset in the widgets' ranges. *)
Lemma valid_assets_series_facts (assets : list asset) :
  Forall valid_asset assets ->
  exists series : list (list Qc * Qc),
    Forall2 series_of assets series
    /\ Forall2 (fun a s =>
                  Forall (fun v => 0 <= v) (fst s)
                  /\ 0 < snd s /\ snd s <= 1
                  /\ Z.of_nat (length (fst s))
                     = (ramp_years a + peak_years a + decline_years a)%Z
                  /\ (1 <= ramp_years a + peak_years a + decline_years a <= 40)%Z)
               assets series.
Proof.
  induction 1 as [|a assets Ha _ (series & Hseries & Hfacts)].
  - exists []. split; constructor.
  - destruct (valid_asset_cash_flows a Ha) as (raw & Hraw & Hnonneg).
    destruct (valid_asset_probability_range a Ha) as (p & Hp & Hp0 & Hp1).
    exists ((raw, p) :: series). split; constructor; try assumption; [split; assumption|].
    cbn [fst snd]. repeat split; try assumption.
    + apply valid_asset_length; assumption.
    + destruct Ha; lia.
    + destruct Ha; lia.
Qed.

Lemma risk_adjusted_nonneg (s : list Qc * Qc) :
  Forall (fun v => 0 <= v) (fst s) -> 0 < snd s -> Forall (fun v => 0 <= v) (risk_adjusted s).
Proof.
  intros Hraw Hp. unfold risk_adjusted. apply Forall_fmap.
  eapply Forall_impl; [|exact Hraw]. intros v Hv. cbn.
  apply Qcmult_nonneg_nonneg; [exact Hv|apply Qclt_le_weak, Hp].
Qed.

(** X14.  For every portfolio in the widgets' ranges [main] returns without
    raising; no item of the pipeline series is negative, the NPV it reports
    lies between 0 and the plain sum of the pipeline series, and the funding
    it reports is the fixed 240,000,000 with the cost table, whatever the
    portfolio. *)
Theorem main_valid_portfolio (assets : list asset) :
  Forall valid_asset assets ->
  exists (f : frame) (out : results),
    run_loop assets = Ok f
    /\ main assets = Ok out
    /\ Forall (fun v => 0 <= v) (pipeline_cash_flows f)
    /\ 0 <= npv_pipeline out
    /\ npv_pipeline out <= py_sum (pipeline_cash_flows f)
    /\ funding_requirements out = Funding (of_int 240000000) CLINICAL_DEVELOPMENT_COSTS.
Proof.
  intros Hvalid.
  destruct (valid_assets_series_facts assets Hvalid) as (series & Hseries & Hfacts).
  destruct (for_each_loop_body assets series initial_frame Hseries) as (f & Hf & Hpipe & _).
  destruct (main_total assets f Hf) as (r & _ & Hmain).
  assert (Hnonneg : Forall (fun v => 0 <= v) (pipeline_cash_flows f)).
  { rewrite Hpipe. cbn [initial_frame pipeline_cash_flows app].
    clear Hseries Hpipe Hf Hmain Hvalid.
    induction Hfacts as [|a s assets series (Hraw & Hp & _) _ IH]; [constructor|].
    cbn [fmap list_fmap concat]. apply Forall_app. split; [|exact IH].
    apply risk_adjusted_nonneg; assumption. }
  exists f. eexists. split; [exact Hf|]. split; [exact Hmain|]. split; [exact Hnonneg|].
  cbn [npv_pipeline funding_requirements].
  rewrite <- npv_from_one.
  destruct (npv_from_bounds (pipeline_cash_flows f) 1 DEFAULT_DISCOUNT_RATE) as [H0 H1];
    [discriminate|exact Hnonneg|].
  repeat split; assumption.
Qed.

Lemma main_valid_portfolio_witness :
  Forall valid_asset sample_portfolio
  /\ exists out : results,
       main sample_portfolio = Ok out
       /\ 0 <= npv_pipeline out
       /\ funding_requirements out = Funding (of_int 240000000) CLINICAL_DEVELOPMENT_COSTS.
Proof.
  split; [exact sample_portfolio_valid|].
  destruct (main_valid_portfolio sample_portfolio sample_portfolio_valid)
    as (f & out & _ & Hmain & _ & Hnpv & _ & Hfund).
  exists out. repeat split; assumption.
Defined.

(** X15.  For a portfolio of at most 10 assets in the widgets' ranges the
    pipeline series has as many items as the assets have ramp, peak and
    decline years together, at least one per asset and at most 400. *)
Theorem pipeline_length (assets : list asset) :
  (length assets <= 10)%nat -> Forall valid_asset assets ->
  exists f : frame,
    run_loop assets = Ok f
    /\ Z.of_nat (length (pipeline_cash_flows f))
       = foldr (fun a acc => (ramp_years a + peak_years a + decline_years a + acc)%Z)
               0%Z assets
    /\ (length assets <= length (pipeline_cash_flows f) <= 400)%nat.
Proof.
  intros Hsize Hvalid.
  destruct (valid_assets_series_facts assets Hvalid) as (series & Hseries & Hfacts).
  destruct (for_each_loop_body assets series initial_frame Hseries) as (f & Hf & Hpipe & _).
  exists f. split; [exact Hf|].
  rewrite Hpipe. cbn [initial_frame pipeline_cash_flows app].
  assert (Hlen : Z.of_nat (length (concat (risk_adjusted <$> series)))
                 = foldr (fun a acc => (ramp_years a + peak_years a + decline_years a + acc)%Z)
                         0%Z assets
                 /\ (Z.of_nat (length assets)
                     <= Z.of_nat (length (concat (risk_adjusted <$> series)))
                     <= 40 * Z.of_nat (length assets))%Z).
  { clear Hseries Hpipe Hf Hvalid Hsize.
    induction Hfacts as [|a s assets series (_ & _ & _ & Hl & Hrange) _ [IH1 IH2]];
      [cbn; lia|].
    cbn [fmap list_fmap concat foldr length]. rewrite length_app.
    unfold risk_adjusted at 1 3 5. rewrite length_fmap. lia. }
  destruct Hlen as [Hsum Hbound]. split; [exact Hsum|]. lia.
Qed.

Lemma pipeline_length_witness :
  (length sample_portfolio <= 10)%nat /\ Forall valid_asset sample_portfolio
  /\ exists f : frame,
       run_loop sample_portfolio = Ok f /\ length (pipeline_cash_flows f) = 24%nat.
Proof.
  split; [cbn; lia|]. split; [exact sample_portfolio_valid|].
  destruct (pipeline_length sample_portfolio) as (f & Hf & Hlen & _);
    [cbn; lia|exact sample_portfolio_valid|].
  exists f. split; [exact Hf|]. cbn in Hlen. lia.
Defined.

(** ** main on one asset: the rarity flag, and an empty market *)

Lemma main_single (a : asset) (raw : list Qc) (p : Qc) :
  asset_cash_flows a = Ok raw ->
  dict_get (probabilities_of a) (phase a) = Ok p ->
  exists out : results,
    main [a] = Ok out /\ npv_pipeline out = p * npv_formula raw DEFAULT_DISCOUNT_RATE.
Proof.
  intros Hraw Hp.
  assert (Hseries : Forall2 series_of [a] [(raw, p)]).
  { constructor; [split; assumption|constructor]. }
  destruct (for_each_loop_body [a] [(raw, p)] initial_frame Hseries) as (f & Hf & Hpipe & _).
  destruct (main_total [a] f Hf) as (r & _ & Hmain).
  eexists. split; [exact Hmain|]. cbn [npv_pipeline]. rewrite Hpipe.
  cbn [initial_frame pipeline_cash_flows app].
  rewrite <- npv_from_one, (npv_from_concat [(raw, p)] 0). cbn [staggered_npv fst snd Qcpower].
  unfold Qcdiv. replace (/ 1) with 1 by qc_closed. ring.
Qed.

Lemma rare_probability_not_lower (ph : string) :
  ph ∈ dict_keys PHASE_PROBABILITIES ->
  exists p q : Qc,
    dict_get PHASE_PROBABILITIES ph = Ok p
    /\ dict_get RARE_DISEASE_PHASE_PROBABILITIES ph = Ok q
    /\ p <= q.
Proof.
  intros Hph. cbn in Hph.
  repeat (apply elem_of_cons in Hph as [->|Hph];
          [do 2 eexists; split; [reflexivity|split; [reflexivity|discriminate]]|]).
  inversion Hph.
Qed.

(** X16.  For one asset in the widgets' ranges, answering "Yes" to the rare
    disease question never lowers the NPV [main] reports: with all other
    answers equal, the NPV of the rare asset is at least that of the
    non-rare one. *)
Theorem rare_disease_not_lower (ph : string) (population penetration : Z) (price : Qc)
    (r k d : Z) (rho : Qc) :
  valid_asset (Asset false ph population penetration price r k d rho) ->
  exists standard rare : results,
    main [Asset false ph population penetration price r k d rho] = Ok standard
    /\ main [Asset true ph population penetration price r k d rho] = Ok rare
    /\ npv_pipeline standard <= npv_pipeline rare.
Proof.
  intros Hvalid.
  destruct (valid_asset_cash_flows _ Hvalid) as (raw & Hraw & Hnonneg).
  destruct (rare_probability_not_lower ph) as (p & q & Hp & Hq & Hpq).
  { destruct Hvalid as [Hphase _ _ _ _ _ _ _]. exact Hphase. }
  destruct (main_single (Asset false ph population penetration price r k d rho) raw p Hraw Hp)
    as (standard & Hstandard & Hnpv1).
  destruct (main_single (Asset true ph population penetration price r k d rho) raw q Hraw Hq)
    as (rare & Hrare & Hnpv2).
  exists standard, rare. split; [exact Hstandard|]. split; [exact Hrare|].
  rewrite Hnpv1, Hnpv2. apply Qcmult_le_compat_r; [exact Hpq|].
  rewrite <- npv_from_one. apply npv_from_bounds; [discriminate|exact Hnonneg].
Qed.

Lemma rare_disease_not_lower_witness :
  valid_asset (Asset false "Phase 2" 1000 50 (of_int 100000) 6 7 8 (Q2Qc (1 # 10)))
  /\ exists standard rare : results,
       main [Asset false "Phase 2" 1000 50 (of_int 100000) 6 7 8 (Q2Qc (1 # 10))] = Ok standard
       /\ main [Asset true "Phase 2" 1000 50 (of_int 100000) 6 7 8 (Q2Qc (1 # 10))] = Ok rare
       /\ npv_pipeline standard <= npv_pipeline rare.
Proof.
  assert (Hvalid : valid_asset
                     (Asset false "Phase 2" 1000 50 (of_int 100000) 6 7 8 (Q2Qc (1 # 10)))).
  { constructor; cbn; try lia; try discriminate; [|split; discriminate].
    do 2 apply list_elem_of_further. apply list_elem_of_here. }
  split; [exact Hvalid|].
  exact (rare_disease_not_lower "Phase 2" 1000 50 (of_int 100000) 6 7 8 (Q2Qc (1 # 10)) Hvalid).
Defined.

Lemma npv_from_zeros (cf : list Qc) (k : nat) (r : Qc) :
  Forall (fun v => v = 0) cf -> npv_from cf k r = 0.
Proof.
  intros H. revert k. induction H as [|c cf -> _ IH]; intros k; [reflexivity|].
  rewrite npv_from_cons, IH. unfold Qcdiv. ring.
Qed.

(** X17.  When the population, the price or the penetration is 0 (0 is the
    population widget's default) and [ramp_years >= 0], every value of the
    revenue curve is 0; an asset in the widgets' ranges with population 0
    alone in the portfolio gives the NPV 0. *)
Theorem empty_market (P price m : Qc) (r k d : Z) (rho : Qc) (a : asset) :
  P = 0 \/ price = 0 \/ m = 0 -> (0 <= r)%Z ->
  valid_asset a -> eligible_population a = 0%Z ->
  (exists curve : list Qc,
     calculate_revenue_curve P price m r k d rho = Ok curve
     /\ Forall (fun v => v = 0) curve)
  /\ exists out : results, main [a] = Ok out /\ npv_pipeline out = 0.
Proof.
  intros Hzero Hr Hvalid Hpop.
  assert (Hcurve : forall (P' price' m' : Qc) (r' k' d' : Z) (rho' : Qc),
             P' * price' * (m' / of_int 100) = 0 -> (0 <= r')%Z ->
             exists curve : list Qc,
               calculate_revenue_curve P' price' m' r' k' d' rho' = Ok curve
               /\ Forall (fun v => v = 0) curve).
  { intros P' price' m' r' k' d' rho' Hpr Hr'.
    eexists. split; [apply calculate_revenue_curve_total, Hr'|]. rewrite Hpr.
    apply Forall_app. split; [|apply Forall_app; split].
    - apply Forall_fmap, Forall_forall. intros v _. cbn. ring.
    - unfold peak_curve, list_times. apply Forall_replicate. reflexivity.
    - apply Forall_fmap, Forall_forall. intros v _. cbn. ring. }
  split.
  - apply Hcurve; [|exact Hr].
    destruct Hzero as [-> | [-> | ->]]; unfold Qcdiv; ring.
  - destruct (Hcurve (of_int (eligible_population a)) (price_per_patient a)
                (of_int (market_penetration_rate a))
                (ramp_years a) (peak_years a) (decline_years a) (decline_rate a))
      as (curve & Hc & Hz).
    { rewrite Hpop. unfold of_int at 1. rewrite Z2Qc_inj_0. ring. }
    { destruct Hvalid. lia. }
    destruct (valid_asset_probability a Hvalid) as (p & Hp).
    assert (Hraw : asset_cash_flows a = Ok curve).
    { unfold asset_cash_flows. rewrite simulate_no_delay. exact Hc. }
    destruct (main_single a curve p Hraw Hp) as (out & Hout & Hnpv).
    exists out. split; [exact Hout|]. rewrite Hnpv, <- npv_from_one, npv_from_zeros by exact Hz.
    ring.
Qed.

Lemma empty_market_witness :
  valid_asset (Asset false "Phase 1" 0 50 (of_int 100000) 6 7 8 (Q2Qc (1 # 10)))
  /\ (exists curve : list Qc,
        calculate_revenue_curve 0 (of_int 100000) (of_int 50) 2 1 1 (Q2Qc (1 # 10)) = Ok curve
        /\ Forall (fun v => v = 0) curve)
  /\ exists out : results,
       main [Asset false "Phase 1" 0 50 (of_int 100000) 6 7 8 (Q2Qc (1 # 10))] = Ok out
       /\ npv_pipeline out = 0.
Proof.
  assert (Hvalid : valid_asset
                     (Asset false "Phase 1" 0 50 (of_int 100000) 6 7 8 (Q2Qc (1 # 10)))).
  { constructor; cbn; try lia; try discriminate; [|split; discriminate].
    apply list_elem_of_further, list_elem_of_here. }
  split; [exact Hvalid|].
  apply (empty_market 0 (of_int 100000) (of_int 50) 2 1 1 (Q2Qc (1 # 10))
           (Asset false "Phase 1" 0 50 (of_int 100000) 6 7 8 (Q2Qc (1 # 10))));
    [left; reflexivity|discriminate|exact Hvalid|reflexivity].
Defined.
